(** * Shogun: first-order stochastic minimizer and Bray-Curtis distance

    A shallow embedding of
    - [src/shogun/optimization/FirstOrderStochasticMinimizer.cpp]
    - [src/shogun/distance/BrayCurtisDistance.cpp]

    C++ methods mutate [this] in place and may throw; they are embedded as
    computations in a state-and-exception monad whose state survives a throw,
    so that "what is stored after a failed call" is a statement about the
    model.  [float64_t] is the kernel's binary64 type with its IEEE 754
    operations.  [int32_t] values are integers: the embedded code compares
    and stores them, and counts a loop index up to a vector length, so no
    operation on them can wrap around. *)

From Stdlib Require Import ZArith String DecimalString List Bool Lia.
From Stdlib Require Import Floats.
Import ListNotations.

Set Implicit Arguments.

(** ** Base types *)

Definition int32_t := Z.
Definition float64_t := float.

(** [SGVector<float64_t>]: a reference-counted dense array; passing it by
    value shares the storage, so a callee's writes are seen by the caller.
    The contents are the state of the computations that receive one. *)
Definition SGVector := list float64_t.

(** [std::shared_ptr<T>]: either null or a handle to an object. *)
Definition shared_ptr (T : Type) := option T.

Definition is_set {T} (p : shared_ptr T) : bool :=
  match p with Some _ => true | None => false end.

(** ** Exceptions and in-place mutation *)

Module Except.

(** The outcome of a method call: it returns, or [require]/[ASSERT] throws a
    [ShogunException] carrying the formatted message. *)
Inductive result (A : Type) : Type :=
| Ok (a : A)
| Threw (msg : string).
Arguments Ok {A} a.
Arguments Threw {A} msg.

Definition succeeded {A} (r : result A) : bool :=
  match r with Ok _ => true | Threw _ => false end.

(** A method over mutable state [S]: the state is returned in both outcomes. *)
Definition M (S A : Type) := S -> result A * S.

Definition ret {S A} (a : A) : M S A := fun s => (Ok a, s).

Definition bind {S A B} (c : M S A) (k : A -> M S B) : M S B :=
  fun s => match c s with
           | (Ok a, s') => k a s'
           | (Threw msg, s') => (Threw msg, s')
           end.

Definition throw {S A} (msg : string) : M S A := fun s => (Threw msg, s).

Definition get {S} : M S S := fun s => (Ok s, s).

Definition modify {S} (f : S -> S) : M S unit := fun s => (Ok tt, f s).

(** [require(cond, msg)]: throws when [cond] is false. *)
Definition require {S} (cond : bool) (msg : string) : M S unit :=
  if cond then ret tt else throw msg.

(** [when c body]: a C++ [if (c) { body }] with no [else]. *)
Definition when {S} (c : bool) (body : M S unit) : M S unit :=
  if c then body else ret tt.

(** [p->]: the object behind a pointer.  Dereferencing a null pointer is
    outside the defined behaviour of the program; it is recorded as a throw,
    and every dereference below follows a [require] on the same pointer. *)
Definition deref {S T} (p : shared_ptr T) : M S T :=
  match p with
  | Some object => ret object
  | None => throw "null pointer dereferenced"
  end.

End Except.
Import Except.

Declare Scope method_scope.
Delimit Scope method_scope with method.
Notation "x <- c ;; k" := (bind c (fun x => k))
  (at level 61, c at next level, right associativity) : method_scope.
Notation "c ;; k" := (bind c (fun _ => k))
  (at level 61, right associativity) : method_scope.
Open Scope method_scope.

(** Decimal rendering of an integer, for the [{}] placeholder of a message. *)
Definition format_int (n : Z) : string := NilZero.string_of_int (Z.to_int n).

(** ** FirstOrderStochasticMinimizer *)

(** The collaborators of the minimizer are classes declared outside the
    embedded files; they are taken as interfaces. *)

(** [LearningRate::get_learning_rate(int32_t iter_counter)]. *)
Class LearningRateClass (LearningRate : Type) := {
  get_learning_rate : LearningRate -> int32_t -> float64_t
}.

(** The penalty family.  [cast_ProximalPenalty] and [cast_SparsePenalty] are
    the two [dynamic_pointer_cast]s applied to a non-null [Penalty]; a
    [ProximalPenalty] offers [update_variable_for_proximity], which rewrites
    the variable vector in place. *)
Class PenaltyClass (Penalty ProximalPenalty SparsePenalty : Type) := {
  cast_ProximalPenalty : Penalty -> shared_ptr ProximalPenalty;
  cast_SparsePenalty : Penalty -> shared_ptr SparsePenalty;
  update_variable_for_proximity :
    ProximalPenalty -> SGVector -> float64_t -> SGVector
}.

(** [std::dynamic_pointer_cast<B>(p)]: null stays null. *)
Definition dynamic_pointer_cast {A B} (cast : A -> shared_ptr B)
    (p : shared_ptr A) : shared_ptr B :=
  match p with
  | Some a => cast a
  | None => None
  end.

(** Objects are compared by address: [p != q] on shared pointers. *)
Class Handle (T : Type) := {
  same_object : forall x y : T, {x = y} + {x <> y}
}.

Definition ptr_neq {T} `{Handle T} (p q : shared_ptr T) : bool :=
  match p, q with
  | Some x, Some y => if same_object x y then false else true
  | None, None => false
  | _, _ => true
  end.

Section Minimizer.

Context {CostFunction DescendUpdater LearningRate : Type}.
Context {Penalty ProximalPenalty SparsePenalty : Type}.
Context `{Handle DescendUpdater} `{Handle LearningRate}.
Context `{LearningRateClass LearningRate}.
Context `{PenaltyClass Penalty ProximalPenalty SparsePenalty}.

(** The fields read or written by the embedded methods.  [m_fun],
    [m_penalty_type] and [m_penalty_weight] belong to the base class
    [FirstOrderMinimizer]. *)
Record FirstOrderStochasticMinimizer := {
  m_fun : shared_ptr CostFunction;
  m_penalty_type : shared_ptr Penalty;
  m_penalty_weight : float64_t;
  m_gradient_updater : shared_ptr DescendUpdater;
  m_learning_rate : shared_ptr LearningRate;
  m_num_passes : int32_t;
  m_cur_passes : int32_t;
  m_iter_counter : int32_t;
  m_parameters : list (string * string)
}.

Local Abbreviation Minimizer := FirstOrderStochasticMinimizer.

(** Field assignments. *)
Definition set_m_gradient_updater (v : shared_ptr DescendUpdater)
    (this : Minimizer) : Minimizer :=
  {| m_fun := m_fun this; m_penalty_type := m_penalty_type this;
     m_penalty_weight := m_penalty_weight this;
     m_gradient_updater := v;
     m_learning_rate := m_learning_rate this;
     m_num_passes := m_num_passes this; m_cur_passes := m_cur_passes this;
     m_iter_counter := m_iter_counter this;
     m_parameters := m_parameters this |}.

Definition set_m_learning_rate (v : shared_ptr LearningRate)
    (this : Minimizer) : Minimizer :=
  {| m_fun := m_fun this; m_penalty_type := m_penalty_type this;
     m_penalty_weight := m_penalty_weight this;
     m_gradient_updater := m_gradient_updater this;
     m_learning_rate := v;
     m_num_passes := m_num_passes this; m_cur_passes := m_cur_passes this;
     m_iter_counter := m_iter_counter this;
     m_parameters := m_parameters this |}.

Definition set_m_num_passes (v : int32_t) (this : Minimizer) : Minimizer :=
  {| m_fun := m_fun this; m_penalty_type := m_penalty_type this;
     m_penalty_weight := m_penalty_weight this;
     m_gradient_updater := m_gradient_updater this;
     m_learning_rate := m_learning_rate this;
     m_num_passes := v; m_cur_passes := m_cur_passes this;
     m_iter_counter := m_iter_counter this;
     m_parameters := m_parameters this |}.

Definition set_m_cur_passes (v : int32_t) (this : Minimizer) : Minimizer :=
  {| m_fun := m_fun this; m_penalty_type := m_penalty_type this;
     m_penalty_weight := m_penalty_weight this;
     m_gradient_updater := m_gradient_updater this;
     m_learning_rate := m_learning_rate this;
     m_num_passes := m_num_passes this; m_cur_passes := v;
     m_iter_counter := m_iter_counter this;
     m_parameters := m_parameters this |}.

Definition set_m_iter_counter (v : int32_t) (this : Minimizer) : Minimizer :=
  {| m_fun := m_fun this; m_penalty_type := m_penalty_type this;
     m_penalty_weight := m_penalty_weight this;
     m_gradient_updater := m_gradient_updater this;
     m_learning_rate := m_learning_rate this;
     m_num_passes := m_num_passes this; m_cur_passes := m_cur_passes this;
     m_iter_counter := v;
     m_parameters := m_parameters this |}.

(** Modelled from the spec: [SG_ADD] is a macro defined outside the embedded
    files; the spec describes it as registering a field, by name, for
    external introspection and serialization.  It is recorded as a (name,
    description) entry appended to the object's parameter table. *)
Definition SG_ADD (name description : string) : M Minimizer unit :=
  modify (fun this =>
    {| m_fun := m_fun this; m_penalty_type := m_penalty_type this;
       m_penalty_weight := m_penalty_weight this;
       m_gradient_updater := m_gradient_updater this;
       m_learning_rate := m_learning_rate this;
       m_num_passes := m_num_passes this; m_cur_passes := m_cur_passes this;
       m_iter_counter := m_iter_counter this;
       m_parameters := m_parameters this ++ [(name, description)] |}).

(** [FirstOrderStochasticMinimizer::set_gradient_updater], lines 38-47. *)
Definition set_gradient_updater (gradient_updater : shared_ptr DescendUpdater)
    : M Minimizer unit :=
  require (is_set gradient_updater) "Gradient updater must set" ;;
  this <- get ;;
  when (ptr_neq (m_gradient_updater this) gradient_updater)
    (modify (set_m_gradient_updater gradient_updater)).

(** [FirstOrderStochasticMinimizer::set_number_passes], lines 55-59. *)
Definition set_number_passes (num_passes : int32_t) : M Minimizer unit :=
  require (0 <? num_passes)%Z
    ("The number (" ++ format_int num_passes
       ++ ") to go through data must be positive") ;;
  modify (set_m_num_passes num_passes).

(** [FirstOrderStochasticMinimizer::set_learning_rate], lines 61-69. *)
Definition set_learning_rate (learning_rate : shared_ptr LearningRate)
    : M Minimizer unit :=
  this <- get ;;
  when (ptr_neq (m_learning_rate this) learning_rate)
    (modify (set_m_learning_rate learning_rate)).

(** [FirstOrderStochasticMinimizer::do_proximal_operation], lines 71-85.
    The method only reads [this]; the state it changes is the storage of
    [variable_reference]. *)
Definition do_proximal_operation (this : Minimizer) : M SGVector unit :=
  let proximal_penalty :=
    dynamic_pointer_cast cast_ProximalPenalty (m_penalty_type this) in
  match proximal_penalty with
  | Some proximal_penalty =>
      let proximal_weight := m_penalty_weight this in
      let sparse_penalty :=
        dynamic_pointer_cast cast_SparsePenalty (m_penalty_type this) in
      proximal_weight <-
        match sparse_penalty with
        | Some _ =>
            require (is_set (m_learning_rate this))
              "Learning rate must set when Sparse Penalty (eg, L1) is used" ;;
            learning_rate <- deref (m_learning_rate this) ;;
            ret (proximal_weight
                 * get_learning_rate learning_rate (m_iter_counter this))%float
        | None => ret proximal_weight
        end ;;
      modify (fun variable_reference =>
        update_variable_for_proximity proximal_penalty variable_reference
          proximal_weight)
  | None => ret tt
  end.

(** [FirstOrderStochasticMinimizer::init_minimization], lines 87-93. *)
Definition init_minimization : M Minimizer unit :=
  this <- get ;;
  require (is_set (m_fun this)) "Cost function must set" ;;
  require (is_set (m_gradient_updater this)) "Descend updater must set" ;;
  require (0 <? m_num_passes this)%Z "The number to go through data must set" ;;
  modify (set_m_cur_passes 0%Z).

(** [FirstOrderStochasticMinimizer::init], lines 95-113 (run by the
    constructors). *)
Definition init : M Minimizer unit :=
  modify (set_m_gradient_updater None) ;;
  modify (set_m_learning_rate None) ;;
  modify (set_m_num_passes 0%Z) ;;
  modify (set_m_cur_passes 0%Z) ;;
  modify (set_m_iter_counter 0%Z) ;;
  SG_ADD "FirstOrderMinimizer__m_learning_rate"
         "learning_rate in FirstOrderStochasticMinimizer" ;;
  SG_ADD "FirstOrderMinimizer__m_gradient_updater"
         "gradient_updater in FirstOrderStochasticMinimizer" ;;
  SG_ADD "FirstOrderMinimizer__m_num_passes"
         "num_passes in FirstOrderStochasticMinimizer" ;;
  SG_ADD "FirstOrderMinimizer__m_cur_passes"
         "cur_passes in FirstOrderStochasticMinimizer" ;;
  SG_ADD "FirstOrderMinimizer__m_iter_counter"
         "m_iter_counter in FirstOrderStochasticMinimizer".

(** *** Call sequences

    A driver may call the methods above in any order and may catch an
    exception and go on; the object and the variable vector keep whatever
    the calls left in them.  [init] is not among them: it is run by the
    constructors. *)
Inductive call :=
| SetGradientUpdater (gradient_updater : shared_ptr DescendUpdater)
| SetNumberPasses (num_passes : int32_t)
| SetLearningRate (learning_rate : shared_ptr LearningRate)
| DoProximalOperation
| InitMinimization.

Definition lift_this (c : M Minimizer unit) : M (Minimizer * SGVector) unit :=
  fun w => let '(r, this') := c (fst w) in (r, (this', snd w)).

Definition lift_vector (c : Minimizer -> M SGVector unit)
    : M (Minimizer * SGVector) unit :=
  fun w => let '(r, v') := c (fst w) (snd w) in (r, (fst w, v')).

Definition run_call (c : call) : M (Minimizer * SGVector) unit :=
  match c with
  | SetGradientUpdater u => lift_this (set_gradient_updater u)
  | SetNumberPasses n => lift_this (set_number_passes n)
  | SetLearningRate lr => lift_this (set_learning_rate lr)
  | DoProximalOperation => lift_vector do_proximal_operation
  | InitMinimization => lift_this init_minimization
  end.

Fixpoint run_calls (cs : list call) (w : Minimizer * SGVector)
    : Minimizer * SGVector :=
  match cs with
  | [] => w
  | c :: cs' => run_calls cs' (snd (run_call c w))
  end.

End Minimizer.

(** ** BrayCurtisDistance *)

(** [DenseFeatures<float64_t>::get_feature_vector(num, len, dofree)] is
    declared outside the embedded files; it hands out the [num]-th feature
    vector together with its length.  The matching [free_feature_vector]
    releases a temporary copy and changes no value. *)
Class DenseFeaturesClass (Features : Type) := {
  get_feature_vector : Features -> int32_t -> list float64_t
}.

(** [ASSERT(cond)]: throws when the condition is false. *)
Definition ASSERT {S} (cond : bool) (expr : string) : M S unit :=
  require cond ("assertion " ++ expr ++ " failed")%string.

(** [avec[i]]. *)
Definition at_index (vec : list float64_t) (i : nat) : float64_t :=
  nth i vec 0%float.

(** Lines 52-60: [for (i=0; i<alen; i++) { s1+=fabs(a[i]-b[i]);
    s2+=fabs(a[i]+b[i]); }], started at index [i] with [count] iterations
    left. *)
Fixpoint compute_loop (avec bvec : list float64_t) (count i : nat)
    (s1 s2 : float64_t) : float64_t * float64_t :=
  match count with
  | O => (s1, s2)
  | S count' =>
      compute_loop avec bvec count' (S i)
        (s1 + abs (at_index avec i - at_index bvec i))%float
        (s2 + abs (at_index avec i + at_index bvec i))%float
  end.

Section BrayCurtis.

Context {Features : Type} `{DenseFeaturesClass Features}.

(** The two feature containers of a distance object. *)
Record BrayCurtisDistance := {
  lhs : Features;
  rhs : Features
}.

(** [BrayCurtisDistance::compute], lines 40-70. *)
Definition compute (idx_a idx_b : int32_t) : M BrayCurtisDistance float64_t :=
  this <- get ;;
  let avec := get_feature_vector (lhs this) idx_a in
  let alen := Z.of_nat (length avec) in
  let bvec := get_feature_vector (rhs this) idx_b in
  let blen := Z.of_nat (length bvec) in
  ASSERT (alen =? blen)%Z "alen==blen" ;;
  let '(s1, s2) := compute_loop avec bvec (Z.to_nat alen) 0 0%float 0%float in
  if (s2 =? 0)%float then ret 0%float else ret (s1 / s2)%float.

End BrayCurtis.

(** *** The metric in the words of the specification

    "sum_i |a_i - b_i| divided by sum_i |a_i + b_i|", the sums taken in
    index order in binary64 arithmetic, starting from [0]. *)
Definition float_sum (terms : list float64_t) : float64_t :=
  fold_left PrimFloat.add terms 0%float.

Definition abs_differences (a b : list float64_t) : list float64_t :=
  map (fun p => abs (fst p - snd p))%float (combine a b).

Definition abs_sums (a b : list float64_t) : list float64_t :=
  map (fun p => abs (fst p + snd p))%float (combine a b).

Definition bray_curtis_quotient (a b : list float64_t) : float64_t :=
  (float_sum (abs_differences a b) / float_sum (abs_sums a b))%float.

(** Every element-wise sum [a_i + b_i] compares equal to zero. *)
Definition sums_all_zero (a b : list float64_t) : bool :=
  forallb (fun p => (fst p + snd p =? 0))%float (combine a b).

(** No entry is an infinity or a NaN. *)
Definition all_finite (a : list float64_t) : bool :=
  forallb is_finite a.

(** Some entry differs from zero. *)
Definition non_zero (a : list float64_t) : bool :=
  existsb (fun x => negb (x =? 0)%float) a.

(** ** Example collaborators

    Small concrete instances of the interfaces, used to run the embedded
    methods on explicit inputs. *)
Module Example.

Inductive cost_function := Quadratic.

Inductive updater := PlainUpdater | MomentumUpdater.

Inductive rate := ConstantRate | InverseScalingRate.

Inductive penalty := SmoothPenalty | ShrinkPenalty | L1Penalty.

Inductive proximal := Shrink | SoftThreshold.

Inductive sparse := Sparse.

#[global] Instance updater_handle : Handle updater.
Proof. constructor; decide equality. Defined.

#[global] Instance rate_handle : Handle rate.
Proof. constructor; decide equality. Defined.

#[global] Instance rate_class : LearningRateClass rate := {
  get_learning_rate r iter_counter :=
    match r with
    | ConstantRate => 0.5%float
    | InverseScalingRate =>
        (1 / (1 + of_uint63 (Uint63.of_Z iter_counter)))%float
    end
}.

Definition soft_threshold (w x : float64_t) : float64_t :=
  if (w <? x)%float then (x - w)%float
  else if (x <? - w)%float then (x + w)%float
  else 0%float.

#[global] Instance penalty_class : PenaltyClass penalty proximal sparse := {
  cast_ProximalPenalty p :=
    match p with
    | SmoothPenalty => None
    | ShrinkPenalty => Some Shrink
    | L1Penalty => Some SoftThreshold
    end;
  cast_SparsePenalty p :=
    match p with
    | L1Penalty => Some Sparse
    | _ => None
    end;
  update_variable_for_proximity q variable proximal_weight :=
    match q with
    | Shrink => map (fun x => x / (1 + proximal_weight))%float variable
    | SoftThreshold => map (soft_threshold proximal_weight) variable
    end
}.

Definition minimizer := @FirstOrderStochasticMinimizer cost_function updater rate penalty.

(** A minimizer as the constructor leaves it, but for the base-class fields. *)
Definition fresh (fn : shared_ptr cost_function) (p : shared_ptr penalty)
    (w : float64_t) : minimizer :=
  {| m_fun := fn; m_penalty_type := p; m_penalty_weight := w;
     m_gradient_updater := None; m_learning_rate := None;
     m_num_passes := 0%Z; m_cur_passes := 0%Z; m_iter_counter := 0%Z;
     m_parameters := [] |}.

(** A configured minimizer in the middle of a run. *)
Definition running (p : shared_ptr penalty) (lr : shared_ptr rate) : minimizer :=
  {| m_fun := Some Quadratic; m_penalty_type := p; m_penalty_weight := 0.25%float;
     m_gradient_updater := Some PlainUpdater; m_learning_rate := lr;
     m_num_passes := 5%Z; m_cur_passes := 2%Z; m_iter_counter := 7%Z;
     m_parameters := [] |}.

(** Dense features as the list of their vectors; an index out of range
    yields the empty vector. *)
#[global] Instance matrix_features : DenseFeaturesClass (list (list float64_t)) := {
  get_feature_vector feats num := nth (Z.to_nat num) feats []
}.

Definition distance_of (l r : list (list float64_t))
    : @BrayCurtisDistance (list (list float64_t)) :=
  {| lhs := l; rhs := r |}.

End Example.

(** ** Auxiliary predicates on binary64 values

    Stated on the IEEE 754 reading [Prim2SF] of a [float64_t]. *)

(** A non-zero number of sign [s]: finite or infinite. *)
Inductive signed_nonzero (s : bool) : spec_float -> Prop :=
| signed_finite m e : signed_nonzero s (S754_finite s m e)
| signed_infinity : signed_nonzero s (S754_infinity s).

(** The sign bit is clear (or the value is NaN): the values [fabs] returns. *)
Definition SFsign_clear (x : spec_float) : Prop := SFabs x = x.

(** A zero or a finite number. *)
Definition SFfinite (x : spec_float) : bool :=
  match x with
  | S754_zero _ | S754_finite _ _ _ => true
  | _ => false
  end.

Definition sign_clear (x : float64_t) : Prop := SFsign_clear (Prim2SF x).

Definition not_nan (x : float64_t) : Prop := Prim2SF x <> S754_nan.

(** * Properties *)

Unset Implicit Arguments.

(** ** Binary64 arithmetic

    Facts about the operations the distance uses ([+], [-], [/], [fabs],
    [==]), proved on [SpecFloat], the IEEE 754 specification of the
    primitive operations, for any precision [prec > 0]. *)

Section SpecFloatFacts.

Local Open Scope Z_scope.

(** *** Mantissas under right shifts *)

(** A mantissa of [d] binary digits is at least [2^(d-1)]. *)
Lemma digits2_pos_lower m : 2 ^ (Z.pos (digits2_pos m) - 1) <= Z.pos m.
Proof.
  induction m as [m IH|m IH|]; simpl digits2_pos.
  - rewrite Pos2Z.inj_succ.
    replace (Z.succ (Z.pos (digits2_pos m)) - 1)
      with (Z.succ (Z.pos (digits2_pos m) - 1)) by lia.
    rewrite Z.pow_succ_r by lia. lia.
  - rewrite Pos2Z.inj_succ.
    replace (Z.succ (Z.pos (digits2_pos m)) - 1)
      with (Z.succ (Z.pos (digits2_pos m) - 1)) by lia.
    rewrite Z.pow_succ_r by lia. lia.
  - simpl. lia.
Qed.

(** One shift halves a non-negative mantissa. *)
Lemma shr_1_m mrs : 0 <= shr_m mrs -> shr_m (shr_1 mrs) = shr_m mrs / 2.
Proof.
  destruct mrs as [m r s]; simpl. intros Hm.
  destruct m as [|p|p]; try lia.
  - reflexivity.
  - destruct p as [p|p|]; simpl shr_m.
    + apply Z.div_unique with (r := 1); lia.
    + apply Z.div_unique with (r := 0); lia.
    + reflexivity.
Qed.

Lemma two_power_pos p : 0 < 2 ^ Z.pos p.
Proof. apply Z.pow_pos_nonneg; lia. Qed.

(** [p] shifts divide it by [2^p]. *)
Lemma iter_shr_1_m p : forall mrs, 0 <= shr_m mrs ->
  shr_m (iter_pos shr_1 p mrs) = shr_m mrs / 2 ^ Z.pos p.
Proof.
  induction p as [p IH|p IH|]; intros mrs Hm; simpl iter_pos.
  - assert (H1 : 0 <= shr_m (shr_1 mrs))
      by (rewrite shr_1_m by assumption; apply Z.div_pos; lia).
    assert (H2 : 0 <= shr_m (iter_pos shr_1 p (shr_1 mrs))).
    { rewrite IH by assumption. apply Z.div_pos; [assumption | apply two_power_pos]. }
    rewrite IH by assumption. rewrite IH by assumption.
    rewrite shr_1_m by assumption.
    pose proof (two_power_pos p).
    rewrite !Z.div_div by lia.
    f_equal. change 2 with (2 ^ 1) at 1.
    rewrite <- !Z.pow_add_r by lia. f_equal. lia.
  - assert (H2 : 0 <= shr_m (iter_pos shr_1 p mrs)).
    { rewrite IH by assumption. apply Z.div_pos; [assumption | apply two_power_pos]. }
    rewrite IH by assumption. rewrite IH by assumption.
    pose proof (two_power_pos p).
    rewrite !Z.div_div by lia.
    f_equal. rewrite <- Z.pow_add_r by lia. f_equal. lia.
  - rewrite shr_1_m by assumption. reflexivity.
Qed.

Lemma shr_record_of_loc_m m l : shr_m (shr_record_of_loc m l) = m.
Proof. destruct l as [|[]]; reflexivity. Qed.

Variables prec emax : Z.
Hypothesis prec_pos : 0 < prec.

Local Abbreviation emin := (SpecFloat.emin prec emax).
Local Abbreviation valid := (SpecFloat.valid_binary prec emax).
Local Abbreviation add := (SFadd prec emax).
Local Abbreviation sub := (SFsub prec emax).
Local Abbreviation div := (SFdiv prec emax).

(** *** Symmetry of [+] and of [fabs (_ - _)] *)

Lemma SFadd_comm x y : add x y = add y x.
Proof.
  destruct x as [sx|sx| |sx mx ex], y as [sy|sy| |sy my ey]; simpl; try reflexivity;
    try (destruct sx, sy; reflexivity).
  rewrite (Z.min_comm ey ex), Z.add_comm. reflexivity.
Qed.

(** Rounding treats the sign as a label: the magnitude of the result does
    not depend on it. *)
Lemma SFabs_binary_round_aux s s' m e l :
  SFabs (binary_round_aux prec emax s m e l)
  = SFabs (binary_round_aux prec emax s' m e l).
Proof.
  unfold binary_round_aux.
  destruct (shr_fexp prec emax m e l) as [mrs' e'].
  destruct (shr_fexp prec emax _ e' loc_Exact) as [mrs'' e''].
  destruct (shr_m mrs''); simpl; try reflexivity.
  destruct (e'' <=? emax - prec)%Z; reflexivity.
Qed.

Lemma SFabs_binary_round s s' m e :
  SFabs (binary_round prec emax s m e) = SFabs (binary_round prec emax s' m e).
Proof.
  unfold binary_round.
  destruct (shl_align m e _) as [mz ez]. apply SFabs_binary_round_aux.
Qed.

Lemma SFabs_binary_normalize_opp m e sz sz' :
  SFabs (binary_normalize prec emax m e sz)
  = SFabs (binary_normalize prec emax (- m) e sz').
Proof.
  destruct m; simpl; try reflexivity; apply SFabs_binary_round.
Qed.

Lemma SFabs_sub_swap x y : SFabs (sub x y) = SFabs (sub y x).
Proof.
  destruct x as [sx|sx| |sx mx ex], y as [sy|sy| |sy my ey]; simpl; try reflexivity;
    try (destruct sx, sy; reflexivity).
  rewrite (Z.min_comm ey ex).
  rewrite (SFabs_binary_normalize_opp _ _ false false).
  f_equal. f_equal. lia.
Qed.

(** *** Rounding a non-zero mantissa *)

Lemma fexp_ge_emin k : emin <= fexp prec emax k.
Proof. unfold fexp. lia. Qed.

(** Shifting a positive mantissa to its canonical exponent never empties it,
    provided the exponent is not below [emin]. *)
Lemma shr_fexp_pos m e l :
  emin <= e ->
  0 < shr_m (fst (shr_fexp prec emax (Z.pos m) e l))
  /\ emin <= snd (shr_fexp prec emax (Z.pos m) e l).
Proof.
  intros He. unfold shr_fexp, Zdigits2.
  set (d := Z.pos (digits2_pos m)).
  destruct (fexp prec emax (d + e) - e) as [|p|p] eqn:Hn; simpl;
    rewrite ?shr_record_of_loc_m; try (split; lia).
  split.
  - rewrite iter_shr_1_m by (rewrite shr_record_of_loc_m; lia).
    rewrite shr_record_of_loc_m.
    assert (Hp : Z.pos p <= d - 1) by (unfold fexp in Hn; lia).
    apply Z.div_str_pos. split; [apply two_power_pos|].
    transitivity (2 ^ (d - 1)); [apply Z.pow_le_mono_r; lia | apply digits2_pos_lower].
  - rewrite <- Hn. pose proof (fexp_ge_emin (d + e)). lia.
Qed.

Lemma round_nearest_even_pos m l : 0 < m -> 0 < round_nearest_even m l.
Proof.
  intros Hm. destruct l as [|[]]; simpl; try lia.
  destruct (Z.even m); lia.
Qed.

(** Hence rounding from an exponent not below [emin] yields a finite number
    or an infinity of the given sign: never a zero, never a NaN. *)
Lemma binary_round_aux_nonzero s m e l :
  emin <= e -> signed_nonzero s (binary_round_aux prec emax s (Z.pos m) e l).
Proof.
  intros He. unfold binary_round_aux.
  destruct (shr_fexp_pos m e l He) as [Hm1 He1].
  destruct (shr_fexp prec emax (Z.pos m) e l) as [mrs' e']; simpl in Hm1, He1.
  pose proof (round_nearest_even_pos _ (loc_of_shr_record mrs') Hm1) as Hr.
  destruct (round_nearest_even (shr_m mrs') (loc_of_shr_record mrs'))
    as [|m'|m']; try lia.
  destruct (shr_fexp_pos m' e' loc_Exact He1) as [Hm2 _].
  destruct (shr_fexp prec emax (Z.pos m') e' loc_Exact) as [mrs'' e'']; simpl in Hm2.
  destruct (shr_m mrs''); try lia.
  destruct (e'' <=? emax - prec); constructor.
Qed.

Lemma binary_round_nonzero s m e :
  emin <= e -> signed_nonzero s (binary_round prec emax s m e).
Proof.
  intros He. unfold binary_round, shl_align.
  destruct (fexp prec emax (Z.pos (digits2_pos m) + e) - e) eqn:Hn;
    apply binary_round_aux_nonzero; try assumption.
  apply fexp_ge_emin.
Qed.

(** The exponent of a valid finite number is not below [emin]. *)
Lemma valid_binary_emin s m e : valid (S754_finite s m e) = true -> emin <= e.
Proof.
  simpl. unfold bounded, canonical_mantissa. intros Hv.
  apply andb_true_iff in Hv. destruct Hv as [Hc _].
  apply Z.eqb_eq in Hc. rewrite <- Hc. apply fexp_ge_emin.
Qed.

(** *** Sums of numbers of one sign *)

(** The sum of two valid finite numbers of one sign is a non-zero number of
    that sign: addition does not underflow. *)
Lemma SFadd_same_sign s mx ex my ey :
  valid (S754_finite s mx ex) = true ->
  valid (S754_finite s my ey) = true ->
  signed_nonzero s (add (S754_finite s mx ex) (S754_finite s my ey)).
Proof.
  intros Hx Hy.
  apply valid_binary_emin in Hx. apply valid_binary_emin in Hy.
  assert (He : emin <= Z.min ex ey) by lia.
  destruct s.
  - exact (binary_round_nonzero true
             (fst (shl_align mx ex (Z.min ex ey)) + fst (shl_align my ey (Z.min ex ey)))
             (Z.min ex ey) He).
  - exact (binary_round_nonzero false
             (fst (shl_align mx ex (Z.min ex ey)) + fst (shl_align my ey (Z.min ex ey)))
             (Z.min ex ey) He).
Qed.

Lemma SFsign_clear_abs x : SFsign_clear (SFabs x).
Proof. destruct x; reflexivity. Qed.

(** Case analysis on two operands whose sign bits are clear. *)
Ltac sign_clear_cases x y Hx Hy :=
  unfold SFsign_clear;
  destruct x as [sx|sx| |sx mx ex], y as [sy|sy| |sy my ey];
  intros Vx Vy Hx Hy;
  try (destruct sx; try discriminate Hx);
  try (destruct sy; try discriminate Hy).

Lemma SFadd_sign_clear x y :
  valid x = true -> valid y = true ->
  SFsign_clear x -> SFsign_clear y -> SFsign_clear (add x y).
Proof.
  sign_clear_cases x y Hx Hy; try reflexivity.
  destruct (SFadd_same_sign false mx ex my ey Vx Vy); reflexivity.
Qed.

(** A sum of two such numbers compares equal to zero only if both do. *)
Lemma SFadd_eqb_zero x y :
  valid x = true -> valid y = true ->
  SFsign_clear x -> SFsign_clear y ->
  SFeqb (add x y) (S754_zero false)
  = SFeqb x (S754_zero false) && SFeqb y (S754_zero false).
Proof.
  sign_clear_cases x y Hx Hy; try reflexivity.
  destruct (SFadd_same_sign false mx ex my ey Vx Vy); reflexivity.
Qed.

Lemma SFadd_not_nan x y :
  valid x = true -> valid y = true ->
  SFsign_clear x -> SFsign_clear y ->
  x <> S754_nan -> y <> S754_nan -> add x y <> S754_nan.
Proof.
  sign_clear_cases x y Hx Hy; intros Nx Ny; try congruence; try discriminate.
  destruct (SFadd_same_sign false mx ex my ey Vx Vy); discriminate.
Qed.

Lemma SFadd_self_not_nan x :
  valid x = true -> SFfinite x = true -> add x x <> S754_nan.
Proof.
  destruct x as [s|s| |s m e]; intros Vx Fx; try discriminate Fx.
  - destruct s; discriminate.
  - destruct (SFadd_same_sign s m e m e Vx Vx); discriminate.
Qed.

(** *** Differences and quotients *)

Lemma SFsub_self x : SFfinite x = true -> sub x x = S754_zero false.
Proof.
  destruct x as [s|s| |s m e]; intros Fx; try discriminate Fx.
  - destruct s; reflexivity.
  - unfold SFsub. rewrite Z.sub_diag. reflexivity.
Qed.

Lemma SFdiv_zero y :
  SFsign_clear y -> y <> S754_nan -> SFeqb y (S754_zero false) = false ->
  div (S754_zero false) y = S754_zero false.
Proof.
  unfold SFsign_clear.
  destruct y as [s|s| |s m e]; intros Hy Ny Zy; try congruence; try discriminate Zy;
    destruct s; try discriminate Hy; reflexivity.
Qed.

Lemma SFeqb_zero_abs x :
  SFeqb (SFabs x) (S754_zero false) = SFeqb x (S754_zero false).
Proof. destruct x as [s|s| |s m e]; try reflexivity; destruct s; reflexivity. Qed.

End SpecFloatFacts.

(** *** The same facts on [float64_t] *)

Section Binary64.

Local Open Scope float_scope.

Lemma prec_pos64 : (0 < prec)%Z.
Proof. reflexivity. Qed.

Lemma Prim2SF_zero : Prim2SF 0 = S754_zero false.
Proof. reflexivity. Qed.

Lemma float_add_comm x y : x + y = y + x.
Proof. apply Prim2SF_inj. rewrite !add_spec. apply SFadd_comm. Qed.

Lemma float_abs_sub_swap x y : abs (x - y) = abs (y - x).
Proof. apply Prim2SF_inj. rewrite !abs_spec, !sub_spec. apply SFabs_sub_swap. Qed.

Lemma sign_clear_zero : sign_clear 0.
Proof. reflexivity. Qed.

Lemma not_nan_zero : not_nan 0.
Proof. discriminate. Qed.

Lemma sign_clear_abs x : sign_clear (abs x).
Proof. unfold sign_clear. rewrite abs_spec. apply SFsign_clear_abs. Qed.

Lemma sign_clear_add x y : sign_clear x -> sign_clear y -> sign_clear (x + y).
Proof.
  unfold sign_clear. rewrite add_spec.
  apply (SFadd_sign_clear _ _ prec_pos64); apply Prim2SF_valid.
Qed.

Lemma not_nan_add x y :
  sign_clear x -> sign_clear y -> not_nan x -> not_nan y -> not_nan (x + y).
Proof.
  unfold sign_clear, not_nan. rewrite add_spec.
  apply (SFadd_not_nan _ _ prec_pos64); apply Prim2SF_valid.
Qed.

Lemma eqb_zero_add x y :
  sign_clear x -> sign_clear y -> (x + y =? 0) = (x =? 0) && (y =? 0).
Proof.
  unfold sign_clear. rewrite !eqb_spec, add_spec, Prim2SF_zero.
  apply (SFadd_eqb_zero _ _ prec_pos64); apply Prim2SF_valid.
Qed.

Lemma eqb_zero_abs x : (abs x =? 0) = (x =? 0).
Proof. rewrite !eqb_spec, abs_spec, Prim2SF_zero. apply SFeqb_zero_abs. Qed.

Lemma is_finite_spec x : is_finite x = true -> SFfinite (Prim2SF x) = true.
Proof.
  unfold is_finite, is_nan, is_infinity. rewrite !eqb_spec, abs_spec.
  destruct (Prim2SF x) as [s|s| |s m e]; try reflexivity.
  - intros Hf. apply negb_true_iff, orb_false_iff in Hf. destruct Hf as [_ Hf].
    discriminate Hf.
  - intros Hf. discriminate Hf.
Qed.

Lemma sub_self x : is_finite x = true -> x - x = 0.
Proof.
  intros Hf. apply Prim2SF_inj. rewrite sub_spec, Prim2SF_zero.
  apply SFsub_self, is_finite_spec, Hf.
Qed.

Lemma not_nan_abs_add_self x : is_finite x = true -> not_nan (abs (x + x)).
Proof.
  intros Hf. unfold not_nan. rewrite abs_spec, add_spec.
  pose proof (SFadd_self_not_nan _ _ prec_pos64 _ (Prim2SF_valid x)
                (is_finite_spec _ Hf)) as Hn.
  unfold SF64add. destruct (SFadd prec emax (Prim2SF x) (Prim2SF x));
    try discriminate.
  congruence.
Qed.

Lemma div_zero y :
  sign_clear y -> not_nan y -> (y =? 0) = false -> 0 / y = 0.
Proof.
  unfold sign_clear, not_nan. rewrite eqb_spec, Prim2SF_zero. intros Hs Hn Hz.
  apply Prim2SF_inj. rewrite div_spec, Prim2SF_zero. apply SFdiv_zero; assumption.
Qed.

End Binary64.

(** ** BrayCurtisDistance::compute *)

Section LoopFacts.

Local Open Scope float_scope.

(** The loop adds the terms in index order: from index [length pa] on, over
    vectors of one length, it folds the two lists of terms. *)
Lemma compute_loop_fold (a : list float64_t) :
  forall (b pa pb : list float64_t) (s1 s2 : float64_t),
  length a = length b -> length pa = length pb ->
  compute_loop (pa ++ a) (pb ++ b) (length a) (length pa) s1 s2
  = (fold_left PrimFloat.add (abs_differences a b) s1,
     fold_left PrimFloat.add (abs_sums a b) s2).
Proof.
  induction a as [|x a IH]; intros b pa pb s1 s2 Hlen Hpre.
  - destruct b; [reflexivity | discriminate Hlen].
  - destruct b as [|y b]; [discriminate Hlen|].
    injection Hlen as Hlen.
    assert (Ha : at_index (pa ++ x :: a) (length pa) = x) by apply nth_middle.
    assert (Hb : at_index (pb ++ y :: b) (length pa) = y)
      by (rewrite Hpre; apply nth_middle).
    cbn [length compute_loop]. rewrite !Ha, !Hb.
    replace (pa ++ x :: a) with ((pa ++ [x]) ++ a) by (rewrite <- app_assoc; reflexivity).
    replace (pb ++ y :: b) with ((pb ++ [y]) ++ b) by (rewrite <- app_assoc; reflexivity).
    replace (S (length pa)) with (length (pa ++ [x]))
      by (rewrite length_app; cbn [length]; lia).
    rewrite IH; [reflexivity | assumption |].
    rewrite !length_app. cbn [length]. lia.
Qed.

Lemma compute_loop_sums (a b : list float64_t) :
  length a = length b ->
  compute_loop a b (length a) 0 0 0
  = (float_sum (abs_differences a b), float_sum (abs_sums a b)).
Proof.
  intros Hlen. exact (compute_loop_fold a b [] [] 0 0 Hlen eq_refl).
Qed.

(** The loop does not distinguish its two operands. *)
Lemma compute_loop_swap (a b : list float64_t) (count : nat) :
  forall (i : nat) (s1 s2 : float64_t),
  compute_loop a b count i s1 s2 = compute_loop b a count i s1 s2.
Proof.
  induction count as [|count IH]; intros i s1 s2; [reflexivity|].
  cbn [compute_loop].
  rewrite (float_abs_sub_swap (at_index a i) (at_index b i)).
  rewrite (float_add_comm (at_index a i) (at_index b i)).
  apply IH.
Qed.

(** The accumulated denominator compares equal to zero exactly when it
    started at zero and every term did. *)
Lemma fold_abs_sums_eqb_zero (ps : list (float64_t * float64_t)) :
  forall acc : float64_t, sign_clear acc ->
  (fold_left PrimFloat.add (map (fun p => abs (fst p + snd p)) ps) acc =? 0)
  = (acc =? 0) && forallb (fun p => fst p + snd p =? 0) ps.
Proof.
  induction ps as [|p ps IH]; intros acc Hacc; cbn [map fold_left forallb].
  - rewrite andb_true_r. reflexivity.
  - rewrite IH by (apply sign_clear_add; [assumption | apply sign_clear_abs]).
    rewrite eqb_zero_add by (assumption || apply sign_clear_abs).
    rewrite eqb_zero_abs, andb_assoc. reflexivity.
Qed.

Lemma float_sum_abs_sums_eqb_zero (a b : list float64_t) :
  (float_sum (abs_sums a b) =? 0) = sums_all_zero a b.
Proof.
  unfold float_sum, abs_sums, sums_all_zero.
  rewrite fold_abs_sums_eqb_zero by apply sign_clear_zero. reflexivity.
Qed.

(** The denominator is never negative, and is a number when every term is. *)
Lemma fold_abs_sums_sign_clear (ps : list (float64_t * float64_t)) :
  forall acc : float64_t, sign_clear acc ->
  sign_clear (fold_left PrimFloat.add (map (fun p => abs (fst p + snd p)) ps) acc).
Proof.
  induction ps as [|p ps IH]; intros acc Hacc; cbn [map fold_left]; [assumption|].
  apply IH, sign_clear_add; [assumption | apply sign_clear_abs].
Qed.

Lemma fold_abs_sums_self_not_nan (a : list float64_t) :
  forall acc : float64_t, sign_clear acc -> not_nan acc ->
  all_finite a = true ->
  not_nan (fold_left PrimFloat.add (abs_sums a a) acc).
Proof.
  unfold abs_sums, all_finite.
  induction a as [|x a IH]; intros acc Hs Hn Hf; cbn [combine map fold_left]; [assumption|].
  cbn [forallb] in Hf. apply andb_true_iff in Hf. destruct Hf as [Hx Hf].
  cbn [fst snd]. apply IH; [| |assumption].
  - apply sign_clear_add; [assumption | apply sign_clear_abs].
  - apply not_nan_add; try assumption; [apply sign_clear_abs|].
    apply not_nan_abs_add_self, Hx.
Qed.

(** The numerator of a finite vector against itself is [+0]. *)
Lemma fold_abs_differences_self (a : list float64_t) :
  all_finite a = true ->
  fold_left PrimFloat.add (abs_differences a a) 0 = 0.
Proof.
  unfold abs_differences, all_finite.
  induction a as [|x a IH]; intros Hf; cbn [combine map fold_left]; [reflexivity|].
  cbn [forallb] in Hf. apply andb_true_iff in Hf. destruct Hf as [Hx Hf].
  cbn [fst snd]. rewrite (sub_self x Hx).
  change (0 + abs 0) with 0. apply IH, Hf.
Qed.

End LoopFacts.

Section BrayCurtisProperties.

Context {Features : Type} `{DenseFeaturesClass Features}.

Local Open Scope float_scope.

(** What a call does, in terms of the two vectors it fetches: it throws on
    unequal lengths, and otherwise returns the guarded quotient of the two
    accumulated sums; the distance object is left as it was. *)
Lemma compute_unfold (this : @BrayCurtisDistance Features) (idx_a idx_b : int32_t) :
  compute idx_a idx_b this
  = let avec := get_feature_vector (lhs this) idx_a in
    let bvec := get_feature_vector (rhs this) idx_b in
    if Nat.eqb (length avec) (length bvec)
    then (Ok (let '(s1, s2) := compute_loop avec bvec (length avec) 0 0 0 in
              if s2 =? 0 then 0 else s1 / s2), this)
    else (Threw "assertion alen==blen failed", this).
Proof.
  unfold compute, bind, get, ASSERT, require, ret, throw. cbv zeta.
  rewrite Nat2Z.id.
  destruct (Nat.eqb_spec (length (get_feature_vector (lhs this) idx_a))
                         (length (get_feature_vector (rhs this) idx_b))) as [E|E].
  - rewrite E, Z.eqb_refl.
    destruct (compute_loop _ _ _ 0%nat 0 0) as [s1 s2].
    destruct (s2 =? 0); reflexivity.
  - destruct (Z.eqb_spec (Z.of_nat (length (get_feature_vector (lhs this) idx_a)))
                         (Z.of_nat (length (get_feature_vector (rhs this) idx_b))))
      as [E'|E']; [|reflexivity].
    apply Nat2Z.inj in E'. contradiction.
Qed.

Lemma compute_equal_length (this : @BrayCurtisDistance Features) (idx_a idx_b : int32_t) :
  let a := get_feature_vector (lhs this) idx_a in
  let b := get_feature_vector (rhs this) idx_b in
  length a = length b ->
  compute idx_a idx_b this
  = (Ok (if float_sum (abs_sums a b) =? 0 then 0 else bray_curtis_quotient a b), this).
Proof.
  intros a b Hlen. rewrite compute_unfold. cbv zeta. fold a b.
  rewrite Hlen, Nat.eqb_refl, <- Hlen.
  rewrite (compute_loop_sums a b Hlen). reflexivity.
Qed.

(** C7 (as amended): on vectors of equal length, [compute] returns exactly
    [0] when the two vectors are equal, non-zero and free of infinities and
    NaNs; it returns exactly [0] when every element-wise sum a_i + b_i is
    zero; in every other case it returns sum_i |a_i - b_i| divided by
    sum_i |a_i + b_i|. *)
Theorem compute_bray_curtis (this : @BrayCurtisDistance Features)
    (idx_a idx_b : int32_t) :
  let a := get_feature_vector (lhs this) idx_a in
  let b := get_feature_vector (rhs this) idx_b in
  length a = length b ->
  (a = b -> non_zero a = true -> all_finite a = true ->
     compute idx_a idx_b this = (Ok 0, this))
  /\ (sums_all_zero a b = true -> compute idx_a idx_b this = (Ok 0, this))
  /\ (sums_all_zero a b = false ->
        compute idx_a idx_b this = (Ok (bray_curtis_quotient a b), this)).
Proof.
  intros a b Hlen.
  pose proof (compute_equal_length this idx_a idx_b Hlen) as Hrun.
  fold a b in Hrun. rewrite Hrun. clear Hrun.
  rewrite float_sum_abs_sums_eqb_zero.
  split; [|split].
  - intros Heq _ Hfin. rewrite <- Heq.
    destruct (sums_all_zero a a) eqn:Hz; [reflexivity|].
    do 2 f_equal. unfold bray_curtis_quotient.
    unfold float_sum at 1. rewrite (fold_abs_differences_self a Hfin).
    apply div_zero.
    + apply fold_abs_sums_sign_clear, sign_clear_zero.
    + apply fold_abs_sums_self_not_nan;
        [apply sign_clear_zero | apply not_nan_zero | assumption].
    + rewrite float_sum_abs_sums_eqb_zero. exact Hz.
  - intros Hz. rewrite Hz. reflexivity.
  - intros Hz. rewrite Hz. reflexivity.
Qed.

(** C9: the distance is symmetric in its two vectors: exchanging the two
    feature containers together with the two indices gives the same
    outcome, so on one container [compute(idx_a, idx_b)] equals
    [compute(idx_b, idx_a)]. *)
Theorem compute_symmetric (this : @BrayCurtisDistance Features)
    (idx_a idx_b : int32_t) :
  fst (compute idx_a idx_b this)
  = fst (compute idx_b idx_a {| lhs := rhs this; rhs := lhs this |})
  /\ (lhs this = rhs this ->
      fst (compute idx_a idx_b this) = fst (compute idx_b idx_a this)).
Proof.
  assert (Hswap : fst (compute idx_a idx_b this)
                  = fst (compute idx_b idx_a {| lhs := rhs this; rhs := lhs this |})).
  { rewrite !compute_unfold. cbv zeta. cbn [lhs rhs].
    rewrite (Nat.eqb_sym (length (get_feature_vector (rhs this) idx_b))).
    destruct (Nat.eqb_spec (length (get_feature_vector (lhs this) idx_a))
                           (length (get_feature_vector (rhs this) idx_b))) as [E|E];
      [|reflexivity].
    cbn [fst]. rewrite <- E. rewrite compute_loop_swap. reflexivity. }
  split; [exact Hswap|].
  intros Hsame. rewrite Hswap. destruct this as [l r]. cbn [lhs rhs] in *.
  subst r. reflexivity.
Qed.

End BrayCurtisProperties.

(** The claim C7 as first stated fails on vectors with an infinite entry:
    the vector [[infinity]] against itself is equal and non-zero, and the
    distance is NaN, not 0. *)
Lemma compute_equal_infinite_not_zero :
  ~ (forall (this : @BrayCurtisDistance (list (list float64_t)))
            (idx_a idx_b : int32_t),
       let a := get_feature_vector (lhs this) idx_a in
       let b := get_feature_vector (rhs this) idx_b in
       length a = length b -> a = b -> non_zero a = true ->
       fst (compute idx_a idx_b this) = Ok 0%float).
Proof.
  intros Hclaim.
  specialize (Hclaim (Example.distance_of [[infinity]] [[infinity]]) 0%Z 0%Z
                eq_refl eq_refl eq_refl).
  apply (f_equal (fun r => match r with Ok x => is_nan x | Threw _ => false end))
    in Hclaim.
  vm_compute in Hclaim. discriminate Hclaim.
Qed.

Lemma compute_bray_curtis_witness :
  compute 0%Z 0%Z (Example.distance_of [[1; 2]%float] [[1; 2]%float])
  = (Ok 0%float, Example.distance_of [[1; 2]%float] [[1; 2]%float])
  /\ compute 0%Z 1%Z (Example.distance_of [[1; -2]%float] [[5; 6]%float; [-1; 2]%float])
     = (Ok 0%float, Example.distance_of [[1; -2]%float] [[5; 6]%float; [-1; 2]%float])
  /\ compute 0%Z 0%Z (Example.distance_of [[1; 2]%float] [[3; 2]%float])
     = (Ok (bray_curtis_quotient [1; 2]%float [3; 2]%float),
        Example.distance_of [[1; 2]%float] [[3; 2]%float]).
Proof.
  split; [|split].
  - destruct (compute_bray_curtis
                (Example.distance_of [[1; 2]%float] [[1; 2]%float]) 0%Z 0%Z)
      as [Hequal _]; [reflexivity|].
    apply Hequal; reflexivity.
  - destruct (compute_bray_curtis
                (Example.distance_of [[1; -2]%float] [[5; 6]%float; [-1; 2]%float])
                0%Z 1%Z)
      as (_ & Hzero & _); [reflexivity|].
    apply Hzero; reflexivity.
  - destruct (compute_bray_curtis
                (Example.distance_of [[1; 2]%float] [[3; 2]%float]) 0%Z 0%Z)
      as (_ & _ & Hquotient); [reflexivity|].
    apply Hquotient; reflexivity.
Defined.

Lemma compute_symmetric_witness :
  fst (compute 0%Z 1%Z (Example.distance_of [[1; 2]%float; [3; 5]%float]
                                            [[1; 2]%float; [3; 5]%float]))
  = fst (compute 1%Z 0%Z (Example.distance_of [[1; 2]%float; [3; 5]%float]
                                              [[1; 2]%float; [3; 5]%float])).
Proof.
  apply (compute_symmetric (Example.distance_of [[1; 2]%float; [3; 5]%float]
                                                [[1; 2]%float; [3; 5]%float])).
  reflexivity.
Defined.

(** ** FirstOrderStochasticMinimizer *)

(** Unfolds the monadic plumbing of a method body. *)
Ltac run_method :=
  unfold bind, get, require, when, deref, modify, ret, throw in *;
  cbn beta iota in *.

Section MinimizerProperties.

Context {CostFunction DescendUpdater LearningRate : Type}.
Context {Penalty ProximalPenalty SparsePenalty : Type}.
Context `{Handle DescendUpdater} `{Handle LearningRate}.
Context `{LearningRateClass LearningRate}.
Context `{PenaltyClass Penalty ProximalPenalty SparsePenalty}.

Local Abbreviation Minimizer :=
  (@FirstOrderStochasticMinimizer CostFunction DescendUpdater LearningRate Penalty).

Lemma is_set_true {T : Type} (p : shared_ptr T) : is_set p = true <-> p <> None.
Proof. destruct p; cbn; split; congruence. Qed.

Lemma ptr_neq_false {T : Type} `{Handle T} (p q : shared_ptr T) :
  ptr_neq p q = false -> p = q.
Proof.
  destruct p as [x|], q as [y|]; cbn; try congruence.
  destruct (same_object x y); congruence.
Qed.

(** *** Setters *)

Lemma set_gradient_updater_null (this : Minimizer) :
  set_gradient_updater None this = (Threw "Gradient updater must set", this).
Proof. reflexivity. Qed.

Lemma set_gradient_updater_some (this : Minimizer) (u : DescendUpdater) :
  set_gradient_updater (Some u) this = (Ok tt, set_m_gradient_updater (Some u) this).
Proof.
  unfold set_gradient_updater. run_method. cbn [is_set].
  destruct (ptr_neq (m_gradient_updater this) (Some u)) eqn:E; [reflexivity|].
  apply ptr_neq_false in E. destruct this; cbn in *. subst. reflexivity.
Qed.

Lemma set_learning_rate_run (this : Minimizer) (lr : shared_ptr LearningRate) :
  set_learning_rate lr this = (Ok tt, set_m_learning_rate lr this).
Proof.
  unfold set_learning_rate. run_method.
  destruct (ptr_neq (m_learning_rate this) lr) eqn:E; [reflexivity|].
  apply ptr_neq_false in E. destruct this; cbn in *. subst. reflexivity.
Qed.

Lemma set_number_passes_run (this : Minimizer) (n : int32_t) :
  set_number_passes n this
  = if (0 <? n)%Z then (Ok tt, set_m_num_passes n this)
    else (Threw ("The number (" ++ format_int n
                   ++ ") to go through data must be positive")%string, this).
Proof.
  unfold set_number_passes. run_method. destruct (0 <? n)%Z; reflexivity.
Qed.

Lemma init_minimization_run (this : Minimizer) :
  init_minimization this
  = if is_set (m_fun this) then
      if is_set (m_gradient_updater this) then
        if (0 <? m_num_passes this)%Z then (Ok tt, set_m_cur_passes 0%Z this)
        else (Threw "The number to go through data must set", this)
      else (Threw "Descend updater must set", this)
    else (Threw "Cost function must set", this).
Proof.
  unfold init_minimization. run_method.
  destruct (is_set (m_fun this)), (is_set (m_gradient_updater this)),
    (0 <? m_num_passes this)%Z; reflexivity.
Qed.

(** C5: [set_number_passes(n)] throws for every n <= 0 (so for 0 and -1),
    and for every n > 0 it returns and the stored number of passes is n. *)
Theorem set_number_passes_positive (this : Minimizer) (n : int32_t) :
  ((n <= 0)%Z ->
     fst (set_number_passes n this)
     = Threw ("The number (" ++ format_int n
                ++ ") to go through data must be positive")%string)
  /\ ((0 < n)%Z ->
        fst (set_number_passes n this) = Ok tt
        /\ m_num_passes (snd (set_number_passes n this)) = n).
Proof.
  rewrite set_number_passes_run. split; intros Hn.
  - destruct (Z.ltb_spec 0 n); [lia | reflexivity].
  - destruct (Z.ltb_spec 0 n); [split; reflexivity | lia].
Qed.

(** C8: a setter that throws has assigned nothing: after
    [set_number_passes(n)] with n <= 0 and after
    [set_gradient_updater(null)] the object is what it was. *)
Theorem failed_setters_store_nothing (this : Minimizer) (n : int32_t) :
  (n <= 0)%Z ->
  (succeeded (fst (set_number_passes n this)) = false
   /\ snd (set_number_passes n this) = this)
  /\ (succeeded (fst (set_gradient_updater None this)) = false
      /\ snd (set_gradient_updater None this) = this).
Proof.
  intros Hn. rewrite set_number_passes_run, set_gradient_updater_null.
  destruct (Z.ltb_spec 0 n); [lia|]. repeat split.
Qed.

(** *** init_minimization and init *)

(** C3: [init_minimization()] returns exactly when a cost function and a
    gradient updater are set and the number of passes is positive;
    otherwise it throws and changes nothing; when it returns, the pass
    counter is zero. *)
Theorem init_minimization_checks (this : Minimizer) :
  (succeeded (fst (init_minimization this)) = true
   <-> m_fun this <> None /\ m_gradient_updater this <> None
       /\ (0 < m_num_passes this)%Z)
  /\ (succeeded (fst (init_minimization this)) = true ->
      snd (init_minimization this) = set_m_cur_passes 0%Z this
      /\ m_cur_passes (snd (init_minimization this)) = 0%Z)
  /\ (succeeded (fst (init_minimization this)) = false ->
      snd (init_minimization this) = this
      /\ exists msg, fst (init_minimization this) = Threw msg).
Proof.
  rewrite init_minimization_run.
  rewrite <- !is_set_true.
  destruct (is_set (m_fun this)), (is_set (m_gradient_updater this)),
    (Z.ltb_spec 0 (m_num_passes this)); cbn [fst snd succeeded];
    repeat split; try discriminate; try tauto; try lia; try eauto;
    intros (? & ? & ?); try discriminate; lia.
Qed.

Lemma init_run (this : Minimizer) :
  fst (init this) = Ok tt
  /\ m_gradient_updater (snd (init this)) = None
  /\ m_learning_rate (snd (init this)) = None
  /\ m_num_passes (snd (init this)) = 0%Z
  /\ m_cur_passes (snd (init this)) = 0%Z
  /\ m_iter_counter (snd (init this)) = 0%Z.
Proof. repeat split. Qed.

(** C4 (as amended): [init_minimization()] zeroes the pass counter and
    leaves the iteration counter as it was; it is [init()], run at
    construction, that zeroes both counters. *)
Theorem init_minimization_counters (this : Minimizer) :
  (m_cur_passes (snd (init this)) = 0%Z /\ m_iter_counter (snd (init this)) = 0%Z)
  /\ (succeeded (fst (init_minimization this)) = true ->
      m_cur_passes (snd (init_minimization this)) = 0%Z
      /\ m_iter_counter (snd (init_minimization this)) = m_iter_counter this).
Proof.
  split; [split; reflexivity|].
  rewrite init_minimization_run.
  destruct (is_set (m_fun this)), (is_set (m_gradient_updater this)),
    (0 <? m_num_passes this)%Z; cbn [fst snd succeeded]; try discriminate.
  intros _. split; reflexivity.
Qed.

(** *** do_proximal_operation *)

Lemma do_proximal_operation_not_proximal (this : Minimizer) (v : SGVector) :
  dynamic_pointer_cast cast_ProximalPenalty (m_penalty_type this) = None ->
  do_proximal_operation this v = (Ok tt, v).
Proof. intros Hp. unfold do_proximal_operation. rewrite Hp. reflexivity. Qed.

Lemma do_proximal_operation_dense (this : Minimizer) (q : ProximalPenalty)
    (v : SGVector) :
  dynamic_pointer_cast cast_ProximalPenalty (m_penalty_type this) = Some q ->
  dynamic_pointer_cast cast_SparsePenalty (m_penalty_type this) = None ->
  do_proximal_operation this v
  = (Ok tt, update_variable_for_proximity q v (m_penalty_weight this)).
Proof.
  intros Hp Hs. unfold do_proximal_operation. rewrite Hp, Hs. reflexivity.
Qed.

Lemma do_proximal_operation_sparse (this : Minimizer) (q : ProximalPenalty)
    (s : SparsePenalty) (v : SGVector) :
  dynamic_pointer_cast cast_ProximalPenalty (m_penalty_type this) = Some q ->
  dynamic_pointer_cast cast_SparsePenalty (m_penalty_type this) = Some s ->
  do_proximal_operation this v
  = match m_learning_rate this with
    | Some lr =>
        (Ok tt,
         update_variable_for_proximity q v
           (m_penalty_weight this * get_learning_rate lr (m_iter_counter this))%float)
    | None =>
        (Threw "Learning rate must set when Sparse Penalty (eg, L1) is used", v)
    end.
Proof.
  intros Hp Hs. unfold do_proximal_operation. rewrite Hp, Hs.
  destruct (m_learning_rate this); reflexivity.
Qed.

(** C1: for a configured penalty [p]: when [p] is not proximal-capable the
    variable vector is left unchanged; when it is, the proximal correction
    is applied with the configured penalty weight, multiplied by the
    learning rate at the current iteration counter exactly when [p] is also
    sparsity-inducing. *)
Theorem do_proximal_operation_weight (this : Minimizer) (p : Penalty)
    (v : SGVector) :
  m_penalty_type this = Some p ->
  (cast_ProximalPenalty p = None -> do_proximal_operation this v = (Ok tt, v))
  /\ (forall q : ProximalPenalty,
        cast_ProximalPenalty p = Some q -> cast_SparsePenalty p = None ->
        do_proximal_operation this v
        = (Ok tt, update_variable_for_proximity q v (m_penalty_weight this)))
  /\ (forall (q : ProximalPenalty) (lr : LearningRate),
        cast_ProximalPenalty p = Some q -> cast_SparsePenalty p <> None ->
        m_learning_rate this = Some lr ->
        do_proximal_operation this v
        = (Ok tt,
           update_variable_for_proximity q v
             (m_penalty_weight this
              * get_learning_rate lr (m_iter_counter this))%float)).
Proof.
  intros Hp. split; [|split].
  - intros Hq. apply do_proximal_operation_not_proximal. rewrite Hp. exact Hq.
  - intros q Hq Hs. apply do_proximal_operation_dense; rewrite Hp; assumption.
  - intros q lr Hq Hs Hlr.
    destruct (cast_SparsePenalty p) as [s|] eqn:Es; [|contradiction].
    rewrite (do_proximal_operation_sparse this q s v), Hlr;
      [reflexivity | rewrite Hp; assumption | rewrite Hp; assumption].
Qed.

(** C2 (as amended): [init_minimization()] does not look at the learning
    rate.  With a sparsity-inducing proximal penalty and no learning-rate
    schedule it returns whenever the cost function, the updater and a
    positive number of passes are set; the missing learning rate is reported
    by [do_proximal_operation], at the proximal step, before the variable
    vector is touched. *)
Theorem missing_learning_rate_reported_at_proximal_step (this : Minimizer)
    (p : Penalty) (q : ProximalPenalty) (s : SparsePenalty) :
  m_penalty_type this = Some p ->
  cast_ProximalPenalty p = Some q -> cast_SparsePenalty p = Some s ->
  m_learning_rate this = None ->
  (m_fun this <> None -> m_gradient_updater this <> None ->
   (0 < m_num_passes this)%Z ->
   init_minimization this = (Ok tt, set_m_cur_passes 0%Z this))
  /\ (forall v : SGVector,
        do_proximal_operation (snd (init_minimization this)) v
        = (Threw "Learning rate must set when Sparse Penalty (eg, L1) is used", v)).
Proof.
  intros Hp Hq Hs Hlr. rewrite init_minimization_run. split.
  - intros Hf Hu Hn. apply is_set_true in Hf. apply is_set_true in Hu.
    rewrite Hf, Hu. destruct (Z.ltb_spec 0 (m_num_passes this)); [reflexivity | lia].
  - intros v.
    assert (Hkeep : forall this' : Minimizer,
               m_penalty_type this' = m_penalty_type this ->
               m_learning_rate this' = m_learning_rate this ->
               do_proximal_operation this' v
               = (Threw "Learning rate must set when Sparse Penalty (eg, L1) is used", v)).
    { intros this' Ep El.
      rewrite (do_proximal_operation_sparse this' q s v), El, Hlr;
        [reflexivity | rewrite Ep, Hp; assumption | rewrite Ep, Hp; assumption]. }
    destruct (is_set (m_fun this)), (is_set (m_gradient_updater this)),
      (0 <? m_num_passes this)%Z; cbn [snd]; apply Hkeep; reflexivity.
Qed.

(** C10: [set_learning_rate(null)] returns and stores the null schedule;
    [init_minimization()] then behaves as before, and the absence shows only
    when a sparse proximal step asks for the rate. *)
Theorem set_learning_rate_accepts_null (this : Minimizer) :
  set_learning_rate None this = (Ok tt, set_m_learning_rate None this)
  /\ m_learning_rate (snd (set_learning_rate None this)) = None
  /\ fst (init_minimization (snd (set_learning_rate None this)))
     = fst (init_minimization this)
  /\ (forall (p : Penalty) (q : ProximalPenalty) (s : SparsePenalty) (v : SGVector),
        m_penalty_type this = Some p ->
        cast_ProximalPenalty p = Some q -> cast_SparsePenalty p = Some s ->
        do_proximal_operation (snd (set_learning_rate None this)) v
        = (Threw "Learning rate must set when Sparse Penalty (eg, L1) is used", v)).
Proof.
  rewrite set_learning_rate_run. cbn [snd].
  split; [reflexivity|]. split; [reflexivity|]. split.
  - rewrite !init_minimization_run. cbn [set_m_learning_rate m_fun m_gradient_updater m_num_passes].
    destruct (is_set (m_fun this)), (is_set (m_gradient_updater this)),
      (0 <? m_num_passes this)%Z; reflexivity.
  - intros p q s v Hp Hq Hs.
    rewrite (do_proximal_operation_sparse (set_m_learning_rate None this) q s v);
      [reflexivity | cbn; rewrite Hp; assumption | cbn; rewrite Hp; assumption].
Qed.

(** *** The updater stays set *)

Lemma run_call_keeps_updater (c : call) (w : Minimizer * SGVector) :
  m_gradient_updater (fst w) <> None ->
  m_gradient_updater (fst (snd (run_call c w))) <> None.
Proof.
  destruct w as [this v]. cbn [fst]. intros Hu.
  destruct c as [u|n|lr| |]; cbn [run_call]; unfold lift_this, lift_vector; cbn [fst snd].
  - destruct u as [u|].
    + rewrite set_gradient_updater_some. cbn. discriminate.
    + rewrite set_gradient_updater_null. cbn. exact Hu.
  - rewrite set_number_passes_run. destruct (0 <? n)%Z; cbn; exact Hu.
  - rewrite set_learning_rate_run. cbn. exact Hu.
  - destruct (do_proximal_operation this v). cbn. exact Hu.
  - rewrite init_minimization_run.
    destruct (is_set (m_fun this)), (is_set (m_gradient_updater this)),
      (0 <? m_num_passes this)%Z; cbn; exact Hu.
Qed.

Lemma run_calls_keep_updater (cs : list call) :
  forall w : Minimizer * SGVector,
  m_gradient_updater (fst w) <> None ->
  m_gradient_updater (fst (run_calls cs w)) <> None.
Proof.
  induction cs as [|c cs IH]; intros w Hu; cbn [run_calls]; [exact Hu|].
  apply IH, run_call_keeps_updater, Hu.
Qed.

(** C6: [set_gradient_updater(null)] throws and stores nothing; a non-null
    updater is stored, and from then on no call of the embedded methods
    makes the stored updater null again, so it is non-null at every step. *)
Theorem set_gradient_updater_rejects_null (this : Minimizer) :
  set_gradient_updater None this = (Threw "Gradient updater must set", this)
  /\ (forall u : DescendUpdater,
        fst (set_gradient_updater (Some u) this) = Ok tt
        /\ m_gradient_updater (snd (set_gradient_updater (Some u) this)) = Some u)
  /\ (forall (u : DescendUpdater) (cs : list call) (v : SGVector),
        m_gradient_updater
          (fst (run_calls cs (snd (set_gradient_updater (Some u) this), v)))
        <> None).
Proof.
  split; [apply set_gradient_updater_null|]. split.
  - intros u. rewrite set_gradient_updater_some. split; reflexivity.
  - intros u cs v. apply run_calls_keep_updater.
    rewrite set_gradient_updater_some. cbn. discriminate.
Qed.

End MinimizerProperties.

(** ** Runs on the example collaborators *)

Section Runs.

Import Example.

Local Open Scope float_scope.

Lemma do_proximal_operation_weight_witness :
  do_proximal_operation (running (Some SmoothPenalty) None) [1; -3] = (Ok tt, [1; -3])
  /\ do_proximal_operation (running (Some ShrinkPenalty) None) [1; -3]
     = (Ok tt, update_variable_for_proximity Shrink [1; -3] 0.25)
  /\ do_proximal_operation (running (Some L1Penalty) (Some ConstantRate)) [1; -3]
     = (Ok tt, update_variable_for_proximity SoftThreshold [1; -3]
                 (0.25 * get_learning_rate ConstantRate 7%Z)).
Proof.
  split; [|split].
  - destruct (do_proximal_operation_weight
                (running (Some SmoothPenalty) None) SmoothPenalty [1; -3])
      as [Hnone _]; [reflexivity|].
    apply Hnone. reflexivity.
  - destruct (do_proximal_operation_weight
                (running (Some ShrinkPenalty) None) ShrinkPenalty [1; -3])
      as (_ & Hdense & _); [reflexivity|].
    apply Hdense; reflexivity.
  - destruct (do_proximal_operation_weight
                (running (Some L1Penalty) (Some ConstantRate)) L1Penalty [1; -3])
      as (_ & _ & Hsparse); [reflexivity|].
    apply Hsparse; [reflexivity | discriminate | reflexivity].
Defined.

(** The claim C2 as first stated fails: a minimizer with a cost function, an
    updater, five passes, the sparse proximal penalty [L1Penalty] and no
    learning rate passes [init_minimization()]. *)
Lemma init_minimization_ignores_learning_rate :
  ~ (forall (this : minimizer) (p : penalty) (q : proximal) (s : sparse),
       m_penalty_type this = Some p ->
       cast_ProximalPenalty p = Some q -> cast_SparsePenalty p = Some s ->
       m_learning_rate this = None ->
       succeeded (fst (init_minimization this)) = false).
Proof.
  intros Hclaim.
  assert (Hfails : succeeded (fst (init_minimization (running (Some L1Penalty) None)))
                   = false)
    by (apply (Hclaim _ L1Penalty SoftThreshold Sparse); reflexivity).
  discriminate Hfails.
Qed.

Lemma missing_learning_rate_reported_at_proximal_step_witness :
  init_minimization (running (Some L1Penalty) None)
  = (Ok tt, set_m_cur_passes 0%Z (running (Some L1Penalty) None))
  /\ do_proximal_operation
       (snd (init_minimization (running (Some L1Penalty) None))) [1; -3]
     = (Threw "Learning rate must set when Sparse Penalty (eg, L1) is used", [1; -3]).
Proof.
  destruct (missing_learning_rate_reported_at_proximal_step
              (running (Some L1Penalty) None) L1Penalty SoftThreshold Sparse)
    as [Hinit Hstep]; try reflexivity.
  split.
  - apply Hinit; [discriminate | discriminate | reflexivity].
  - apply Hstep.
Defined.

Lemma init_minimization_checks_witness :
  snd (init_minimization (running None None)) = set_m_cur_passes 0%Z (running None None)
  /\ m_cur_passes (snd (init_minimization (running None None))) = 0%Z.
Proof.
  destruct (init_minimization_checks (running None None)) as (_ & Hok & _).
  apply Hok. reflexivity.
Defined.

(** The claim C4 as first stated fails: [init_minimization()] on a minimizer
    whose iteration counter is 7 returns and the counter is still 7. *)
Lemma init_minimization_keeps_iter_counter :
  ~ (forall this : minimizer,
       succeeded (fst (init_minimization this)) = true ->
       m_cur_passes (snd (init_minimization this)) = 0%Z
       /\ m_iter_counter (snd (init_minimization this)) = 0%Z).
Proof.
  intros Hclaim.
  destruct (Hclaim (running None None)) as [_ Hiter]; [reflexivity|].
  discriminate Hiter.
Qed.

Lemma init_minimization_counters_witness :
  m_cur_passes (snd (init_minimization (running None None))) = 0%Z
  /\ m_iter_counter (snd (init_minimization (running None None))) = 7%Z.
Proof.
  destruct (init_minimization_counters (running None None)) as [_ Hkeep].
  apply Hkeep. reflexivity.
Defined.

Lemma set_number_passes_positive_witness :
  fst (set_number_passes 0%Z (fresh None None 0))
  = Threw "The number (0) to go through data must be positive"
  /\ fst (set_number_passes (-1)%Z (fresh None None 0))
     = Threw "The number (-1) to go through data must be positive"
  /\ fst (set_number_passes 5%Z (fresh None None 0)) = Ok tt
  /\ m_num_passes (snd (set_number_passes 5%Z (fresh None None 0))) = 5%Z.
Proof.
  split; [|split].
  - destruct (set_number_passes_positive (fresh None None 0) 0%Z) as [Hfail _].
    apply Hfail. lia.
  - destruct (set_number_passes_positive (fresh None None 0) (-1)%Z) as [Hfail _].
    apply Hfail. lia.
  - destruct (set_number_passes_positive (fresh None None 0) 5%Z) as [_ Hok].
    apply Hok. lia.
Defined.

Lemma failed_setters_store_nothing_witness :
  (succeeded (fst (set_number_passes (-1)%Z (running None None))) = false
   /\ snd (set_number_passes (-1)%Z (running None None)) = running None None)
  /\ (succeeded (fst (set_gradient_updater None (running None None))) = false
      /\ snd (set_gradient_updater None (running None None)) = running None None).
Proof.
  apply (failed_setters_store_nothing (running None None) (-1)%Z). lia.
Defined.

Lemma set_learning_rate_accepts_null_witness :
  do_proximal_operation
    (snd (set_learning_rate None (running (Some L1Penalty) (Some ConstantRate))))
    [1; -3]
  = (Threw "Learning rate must set when Sparse Penalty (eg, L1) is used", [1; -3]).
Proof.
  destruct (set_learning_rate_accepts_null
              (running (Some L1Penalty) (Some ConstantRate)))
    as (_ & _ & _ & Hstep).
  apply (Hstep L1Penalty SoftThreshold Sparse); reflexivity.
Defined.

End Runs.

(** * Further properties *)

(** ** More binary64 arithmetic *)

Section SpecFloatMore.

Local Open Scope Z_scope.

Variables prec emax : Z.

Local Abbreviation add := (SFadd prec emax).
Local Abbreviation sub := (SFsub prec emax).
Local Abbreviation div := (SFdiv prec emax).

(** Rounding returns a value of the sign it was given, or a NaN. *)
Lemma SFsign_clear_binary_round_aux m e l :
  SFsign_clear (binary_round_aux prec emax false m e l).
Proof.
  unfold SFsign_clear, binary_round_aux.
  destruct (shr_fexp prec emax m e l) as [mrs' e'].
  destruct (shr_fexp prec emax _ e' loc_Exact) as [mrs'' e''].
  destruct (shr_m mrs''); try reflexivity.
  destruct (e'' <=? emax - prec); reflexivity.
Qed.

Lemma SFdiv_sign_clear x y :
  SFsign_clear x -> SFsign_clear y -> SFsign_clear (div x y).
Proof.
  unfold SFsign_clear.
  destruct x as [sx|sx| |sx mx ex], y as [sy|sy| |sy my ey]; intros Hx Hy;
    try (destruct sx; try discriminate Hx); try (destruct sy; try discriminate Hy);
    try reflexivity.
  unfold SFdiv. cbn [xorb].
  destruct (SFdiv_core_binary prec emax (Z.pos mx) ex (Z.pos my) ey) as [[mz ez] lz].
  apply SFsign_clear_binary_round_aux.
Qed.

Lemma SFltb_sign_clear x : SFsign_clear x -> SFltb x (S754_zero false) = false.
Proof.
  unfold SFsign_clear.
  destruct x as [s|s| |s m e]; intros Hx; try reflexivity;
    destruct s; try discriminate Hx; reflexivity.
Qed.

Lemma SFadd_zero_r x : SFsign_clear x -> add x (S754_zero false) = x.
Proof.
  unfold SFsign_clear.
  destruct x as [s|s| |s m e]; intros Hx; try reflexivity.
  destruct s; try discriminate Hx; reflexivity.
Qed.

Lemma SFadd_opp x :
  SFfinite x = true -> SFeqb (add x (SFopp x)) (S754_zero false) = true.
Proof.
  destruct x as [s|s| |s m e]; intros Fx; try discriminate Fx.
  - destruct s; reflexivity.
  - unfold SFopp, SFadd. rewrite Z.min_id.
    replace (cond_Zopp s (Z.pos (fst (shl_align m e e)))
             + cond_Zopp (negb s) (Z.pos (fst (shl_align m e e)))) with 0
      by (destruct s; cbn [cond_Zopp negb]; lia).
    reflexivity.
Qed.

Lemma SFadd_nan_r x : add x S754_nan = S754_nan.
Proof. destruct x; reflexivity. Qed.

Lemma SFsub_nan_r x : sub x S754_nan = S754_nan.
Proof. destruct x; reflexivity. Qed.

Lemma SFeqb_refl_not_nan x : x <> S754_nan -> SFeqb x x = true.
Proof.
  destruct x as [s|s| |s m e]; intros Hx; try congruence.
  - reflexivity.
  - destruct s; reflexivity.
  - unfold SFeqb, SFcompare. rewrite Z.compare_refl, Pos.compare_cont_refl.
    destruct s; reflexivity.
Qed.

End SpecFloatMore.

Section Binary64More.

Local Open Scope float_scope.

Lemma Prim2SF_nan : Prim2SF nan = S754_nan.
Proof. reflexivity. Qed.

Lemma is_nan_eq x : is_nan x = true -> x = nan.
Proof.
  unfold is_nan. rewrite eqb_spec. intros Hx.
  apply Prim2SF_inj. rewrite Prim2SF_nan.
  destruct (Prim2SF x) eqn:E; try reflexivity;
    rewrite SFeqb_refl_not_nan in Hx by discriminate; discriminate Hx.
Qed.

Lemma add_nan_l y : nan + y = nan.
Proof. apply Prim2SF_inj. rewrite add_spec, Prim2SF_nan. reflexivity. Qed.

Lemma add_nan_r x : x + nan = nan.
Proof. apply Prim2SF_inj. rewrite add_spec, Prim2SF_nan. apply SFadd_nan_r. Qed.

Lemma sub_nan_l y : nan - y = nan.
Proof. apply Prim2SF_inj. rewrite sub_spec, Prim2SF_nan. reflexivity. Qed.

Lemma sub_nan_r x : x - nan = nan.
Proof. apply Prim2SF_inj. rewrite sub_spec, Prim2SF_nan. apply SFsub_nan_r. Qed.

Lemma sign_clear_div x y : sign_clear x -> sign_clear y -> sign_clear (x / y).
Proof. unfold sign_clear. rewrite div_spec. apply SFdiv_sign_clear. Qed.

Lemma ltb_zero_sign_clear x : sign_clear x -> (x <? 0) = false.
Proof.
  unfold sign_clear. rewrite ltb_spec, Prim2SF_zero. apply SFltb_sign_clear.
Qed.

Lemma add_zero_r x : sign_clear x -> x + 0 = x.
Proof.
  unfold sign_clear. intros Hx. apply Prim2SF_inj.
  rewrite add_spec, Prim2SF_zero. apply SFadd_zero_r, Hx.
Qed.

Lemma add_opp_eqb_zero x : is_finite x = true -> (x + - x =? 0) = true.
Proof.
  intros Hf. rewrite eqb_spec, add_spec, opp_spec, Prim2SF_zero.
  apply SFadd_opp, is_finite_spec, Hf.
Qed.

End Binary64More.

Section DivSelf.

Local Open Scope Z_scope.

Lemma div_eucl_mul_self a b : 0 < b -> Z.div_eucl (a * b) b = (a, 0).
Proof.
  intros Hb.
  pose proof (Z.div_mul a b ltac:(lia)) as Hq.
  pose proof (Z.mod_mul a b ltac:(lia)) as Hr.
  unfold Z.div, Z.modulo in Hq, Hr.
  destruct (Z.div_eucl (a * b) b) as [q r]. cbn [fst snd] in Hq, Hr.
  congruence.
Qed.

Lemma new_location_exact n : new_location n 0 = loc_Exact.
Proof.
  unfold new_location, new_location_even, new_location_odd.
  destruct (Z.even n); reflexivity.
Qed.

(** A finite non-zero binary64 number divided by itself is exactly one. *)
Lemma SF64div_self s m e :
  SF64div (S754_finite s m e) (S754_finite s m e)
  = S754_finite false 4503599627370496 (-52).
Proof.
  unfold SF64div, SFdiv, SFdiv_core_binary.
  rewrite !Z.sub_diag.
  change (Z.min (fexp prec emax 0) 0) with (-53).
  cbn [Z.sub Z.opp Z.add].
  rewrite Z.shiftl_mul_pow2 by lia.
  rewrite (Z.mul_comm (Z.pos m)).
  change IntDef.Z.div_eucl with Z.div_eucl.
  rewrite div_eucl_mul_self by lia.
  rewrite new_location_exact, xorb_nilpotent.
  vm_compute. reflexivity.
Qed.

Lemma SFeqb_zero_inv x :
  SFeqb x (S754_zero false) = true -> exists s, x = S754_zero s.
Proof.
  destruct x as [s|s| |s m e]; intros Hx; try discriminate Hx; try (destruct s; discriminate Hx).
  exists s. reflexivity.
Qed.

End DivSelf.

Section Binary64Div.

Local Open Scope float_scope.

Lemma div_self x : is_finite x = true -> (x =? 0) = false -> x / x = 1.
Proof.
  intros Hf Hz. apply Prim2SF_inj. rewrite div_spec.
  apply is_finite_spec in Hf. rewrite eqb_spec, Prim2SF_zero in Hz.
  destruct (Prim2SF x) as [s|s| |s m e]; try discriminate Hf.
  - discriminate Hz.
  - rewrite SF64div_self. reflexivity.
Qed.

(** Subtracting and adding [+0] both leave the magnitude. *)
Lemma abs_sub_zero x : abs (x - 0) = abs (x + 0).
Proof.
  apply Prim2SF_inj. rewrite !abs_spec, sub_spec, add_spec, Prim2SF_zero.
  destruct (Prim2SF x) as [s|s| |s m e]; try reflexivity; destruct s; reflexivity.
Qed.

Lemma eqb_zero_add_zero x : (x + 0 =? 0) = (x =? 0).
Proof.
  rewrite !eqb_spec, add_spec, Prim2SF_zero.
  destruct (Prim2SF x) as [s|s| |s m e]; try reflexivity; destruct s; reflexivity.
Qed.

(** Two zeros, of either sign, give [+0] terms. *)
Lemma abs_terms_of_zeros x y :
  (x =? 0) = true -> (y =? 0) = true -> abs (x - y) = 0 /\ abs (x + y) = 0.
Proof.
  rewrite !eqb_spec, Prim2SF_zero. intros Hx Hy.
  apply SFeqb_zero_inv in Hx. apply SFeqb_zero_inv in Hy.
  destruct Hx as [sx Hx], Hy as [sy Hy].
  split; apply Prim2SF_inj;
    rewrite abs_spec, ?sub_spec, ?add_spec, Hx, Hy, Prim2SF_zero;
    destruct sx, sy; reflexivity.
Qed.

End Binary64Div.

(** ** More on BrayCurtisDistance::compute *)

Section SumFacts.

Local Open Scope float_scope.

Lemma combine_app_same {A B : Type} (a1 : list A) :
  forall (b1 : list B) (a2 : list A) (b2 : list B),
  length a1 = length b1 ->
  combine (a1 ++ a2) (b1 ++ b2) = combine a1 b1 ++ combine a2 b2.
Proof.
  induction a1 as [|x a1 IH]; intros [|y b1] a2 b2 Hlen; try discriminate Hlen.
  - reflexivity.
  - cbn. f_equal. apply IH. injection Hlen as Hlen. exact Hlen.
Qed.

(** Every entry of either vector meets an entry of the other. *)
Lemma in_combine_cover (a : list float64_t) :
  forall (b : list float64_t) (x : float64_t),
  length a = length b ->
  (In x a -> exists y, In (x, y) (combine a b))
  /\ (In x b -> exists y, In (y, x) (combine a b)).
Proof.
  induction a as [|u a IH]; intros [|v b] x Hlen; try discriminate Hlen.
  - split; intros [].
  - injection Hlen as Hlen. destruct (IH b x Hlen) as [IHa IHb].
    split; intros [E|Hin].
    + subst. exists v. left. reflexivity.
    + destruct (IHa Hin) as [y Hy]. exists y. right. exact Hy.
    + subst. exists u. left. reflexivity.
    + destruct (IHb Hin) as [y Hy]. exists y. right. exact Hy.
Qed.

(** A NaN term, or a NaN accumulator, makes the sum NaN. *)
Lemma fold_add_nan_acc (l : list float64_t) : fold_left PrimFloat.add l nan = nan.
Proof.
  induction l as [|t l IH]; cbn [fold_left]; [reflexivity|].
  rewrite add_nan_l. exact IH.
Qed.

Lemma fold_add_nan_term (l : list float64_t) :
  forall acc : float64_t, In nan l -> fold_left PrimFloat.add l acc = nan.
Proof.
  induction l as [|t l IH]; intros acc Hin; [destruct Hin|].
  cbn [fold_left]. destruct Hin as [E|Hin].
  - subst. rewrite add_nan_r. apply fold_add_nan_acc.
  - apply IH, Hin.
Qed.

Lemma nan_entry_sums (a b : list float64_t) :
  length a = length b -> In nan a \/ In nan b ->
  float_sum (abs_differences a b) = nan /\ float_sum (abs_sums a b) = nan.
Proof.
  intros Hlen Hnan.
  assert (Hpair : exists p, In p (combine a b) /\ (fst p = nan \/ snd p = nan)).
  { destruct Hnan as [Ha|Hb].
    - destruct (proj1 (in_combine_cover a b nan Hlen) Ha) as [y Hy].
      exists (nan, y). split; [exact Hy | left; reflexivity].
    - destruct (proj2 (in_combine_cover a b nan Hlen) Hb) as [y Hy].
      exists (y, nan). split; [exact Hy | right; reflexivity]. }
  destruct Hpair as ([x y] & Hin & Hxy). cbn [fst snd] in Hxy.
  split; apply fold_add_nan_term; apply in_map_iff; exists (x, y);
    (split; [|exact Hin]); cbn [fst snd];
    destruct Hxy as [E|E]; subst;
    rewrite ?sub_nan_l, ?sub_nan_r, ?add_nan_l, ?add_nan_r; reflexivity.
Qed.

Lemma existsb_is_nan (a : list float64_t) : existsb is_nan a = true -> In nan a.
Proof.
  intros Hex. apply existsb_exists in Hex. destruct Hex as (x & Hin & Hx).
  apply is_nan_eq in Hx. subst. exact Hin.
Qed.

(** Sums of magnitudes have a clear sign bit. *)
Lemma fold_add_sign_clear (l : list float64_t) :
  forall acc : float64_t,
  sign_clear acc -> Forall sign_clear l -> sign_clear (fold_left PrimFloat.add l acc).
Proof.
  induction l as [|t l IH]; intros acc Hacc Hl; cbn [fold_left]; [exact Hacc|].
  inversion Hl as [|? ? Ht Hl']; subst.
  apply IH; [apply sign_clear_add; assumption | assumption].
Qed.

Lemma abs_differences_sign_clear (a b : list float64_t) :
  Forall sign_clear (abs_differences a b).
Proof.
  unfold abs_differences. apply Forall_forall. intros t Ht.
  apply in_map_iff in Ht. destruct Ht as (p & E & _). subst. apply sign_clear_abs.
Qed.

Lemma abs_sums_sign_clear (a b : list float64_t) :
  Forall sign_clear (abs_sums a b).
Proof.
  unfold abs_sums. apply Forall_forall. intros t Ht.
  apply in_map_iff in Ht. destruct Ht as (p & E & _). subst. apply sign_clear_abs.
Qed.

Lemma float_sum_sign_clear (l : list float64_t) :
  Forall sign_clear l -> sign_clear (float_sum l).
Proof. intros Hl. apply fold_add_sign_clear; [apply sign_clear_zero | exact Hl]. Qed.

(** A [+0] term in the middle of a sum of magnitudes can be dropped. *)
Lemma float_sum_drop_zero (l1 l2 : list float64_t) :
  Forall sign_clear l1 -> float_sum (l1 ++ 0 :: l2) = float_sum (l1 ++ l2).
Proof.
  intros Hl1. unfold float_sum. rewrite !fold_left_app. cbn [fold_left].
  rewrite add_zero_r; [reflexivity|].
  apply fold_add_sign_clear; [apply sign_clear_zero | exact Hl1].
Qed.

(** Against the zero vector the two sums have the same terms. *)
Lemma abs_differences_zero_vector (a : list float64_t) :
  abs_differences a (repeat 0 (length a)) = abs_sums a (repeat 0 (length a)).
Proof.
  unfold abs_differences, abs_sums.
  induction a as [|x a IH]; [reflexivity|].
  cbn [length repeat combine map fst snd]. rewrite IH, abs_sub_zero. reflexivity.
Qed.

Lemma sums_all_zero_zero_vector (a : list float64_t) :
  sums_all_zero a (repeat 0 (length a)) = negb (non_zero a).
Proof.
  unfold sums_all_zero, non_zero.
  induction a as [|x a IH]; [reflexivity|].
  cbn [length repeat combine forallb existsb fst snd].
  rewrite IH, eqb_zero_add_zero, negb_orb, negb_involutive. reflexivity.
Qed.

Lemma sums_all_zero_opposite (a : list float64_t) :
  all_finite a = true -> sums_all_zero a (map PrimFloat.opp a) = true.
Proof.
  unfold all_finite, sums_all_zero.
  induction a as [|x a IH]; intros Hf; [reflexivity|].
  cbn [forallb] in Hf. apply andb_true_iff in Hf. destruct Hf as [Hx Hf].
  cbn [map combine forallb fst snd]. rewrite (add_opp_eqb_zero x Hx). apply IH, Hf.
Qed.

End SumFacts.

Section BrayCurtisMore.

Context {Features : Type} `{DenseFeaturesClass Features}.

Local Open Scope float_scope.


(** X2: A value returned by [compute] is never below zero: it is a NaN or a
    number that is not negative. *)
Theorem compute_never_negative (this : @BrayCurtisDistance Features)
    (idx_a idx_b : int32_t) (r : float64_t) :
  fst (compute idx_a idx_b this) = Ok r -> (r <? 0) = false.
Proof.
  rewrite compute_unfold. cbv zeta.
  destruct (Nat.eqb_spec (length (get_feature_vector (lhs this) idx_a))
                         (length (get_feature_vector (rhs this) idx_b))) as [E|E];
    cbn [fst]; [|discriminate].
  rewrite (compute_loop_sums _ _ E).
  intros Hr.
  apply (f_equal (fun o => match o with Ok x => x | Threw _ => r end)) in Hr.
  cbv beta iota in Hr. rewrite <- Hr. apply ltb_zero_sign_clear.
  destruct (_ =? 0); [apply sign_clear_zero|].
  apply sign_clear_div; apply float_sum_sign_clear;
    [apply abs_differences_sign_clear | apply abs_sums_sign_clear].
Qed.

(** X3: A NaN entry in either vector makes the distance NaN: the guard against
    a zero denominator does not hide it. *)
Theorem compute_nan_entry (this : @BrayCurtisDistance Features)
    (idx_a idx_b : int32_t) :
  let a := get_feature_vector (lhs this) idx_a in
  let b := get_feature_vector (rhs this) idx_b in
  length a = length b ->
  existsb is_nan a || existsb is_nan b = true ->
  compute idx_a idx_b this = (Ok nan, this).
Proof.
  intros a b Hlen Hnan.
  pose proof (compute_equal_length this idx_a idx_b Hlen) as Hrun.
  fold a b in Hrun. rewrite Hrun.
  assert (Hin : In nan a \/ In nan b).
  { apply orb_true_iff in Hnan.
    destruct Hnan as [Ha|Hb]; [left | right]; apply existsb_is_nan; assumption. }
  destruct (nan_entry_sums a b Hlen Hin) as [H1 H2].
  unfold bray_curtis_quotient. rewrite H1, H2. reflexivity.
Qed.

(** X4: The distance between a finite vector and its negation is 0: every
    element-wise sum is zero, so the zero-denominator guard answers. *)
Theorem compute_opposite_vectors (this : @BrayCurtisDistance Features)
    (idx_a idx_b : int32_t) :
  let a := get_feature_vector (lhs this) idx_a in
  let b := get_feature_vector (rhs this) idx_b in
  b = map PrimFloat.opp a -> all_finite a = true ->
  compute idx_a idx_b this = (Ok 0, this).
Proof.
  intros a b Hb Hfin.
  assert (Hlen : length a = length b) by (rewrite Hb, length_map; reflexivity).
  pose proof (compute_equal_length this idx_a idx_b Hlen) as Hrun.
  fold a b in Hrun. rewrite Hrun.
  rewrite float_sum_abs_sums_eqb_zero, Hb, (sums_all_zero_opposite a Hfin).
  reflexivity.
Qed.

(** X5: The distance between a non-zero vector and the zero vector of the same
    length is exactly 1, as long as the sum of the magnitudes does not
    overflow. *)
Theorem compute_against_zero_vector (this : @BrayCurtisDistance Features)
    (idx_a idx_b : int32_t) :
  let a := get_feature_vector (lhs this) idx_a in
  let b := get_feature_vector (rhs this) idx_b in
  b = repeat 0 (length a) -> non_zero a = true ->
  is_finite (float_sum (abs_sums a b)) = true ->
  compute idx_a idx_b this = (Ok 1, this).
Proof.
  intros a b Hb Hnz Hfin.
  assert (Hlen : length a = length b) by (rewrite Hb, repeat_length; reflexivity).
  pose proof (compute_equal_length this idx_a idx_b Hlen) as Hrun.
  fold a b in Hrun. rewrite Hrun.
  assert (Hz : (float_sum (abs_sums a b) =? 0) = false).
  { rewrite float_sum_abs_sums_eqb_zero, Hb, sums_all_zero_zero_vector, Hnz.
    reflexivity. }
  rewrite Hz. unfold bray_curtis_quotient.
  replace (abs_differences a b) with (abs_sums a b)
    by (rewrite Hb; symmetry; apply abs_differences_zero_vector).
  rewrite (div_self _ Hfin Hz). reflexivity.
Qed.

(** X6: A position where both vectors hold a zero (of either sign) does not
    count: removing it from both vectors leaves the distance as it is. *)
Theorem compute_ignores_zero_pair (this this' : @BrayCurtisDistance Features)
    (idx_a idx_b idx_a' idx_b' : int32_t)
    (a1 a2 b1 b2 : list float64_t) (x y : float64_t) :
  get_feature_vector (lhs this) idx_a = a1 ++ x :: a2 ->
  get_feature_vector (rhs this) idx_b = b1 ++ y :: b2 ->
  get_feature_vector (lhs this') idx_a' = a1 ++ a2 ->
  get_feature_vector (rhs this') idx_b' = b1 ++ b2 ->
  length a1 = length b1 -> length a2 = length b2 ->
  (x =? 0) = true -> (y =? 0) = true ->
  fst (compute idx_a idx_b this) = fst (compute idx_a' idx_b' this').
Proof.
  intros Ha Hb Ha' Hb' Hl1 Hl2 Hx Hy.
  rewrite (compute_equal_length this idx_a idx_b)
    by (rewrite Ha, Hb, !length_app; cbn [length]; lia).
  rewrite (compute_equal_length this' idx_a' idx_b')
    by (rewrite Ha', Hb', !length_app; lia).
  rewrite Ha, Hb, Ha', Hb'. cbn [fst].
  destruct (abs_terms_of_zeros x y Hx Hy) as [Hd Hs].
  assert (Ed : float_sum (abs_differences (a1 ++ x :: a2) (b1 ++ y :: b2))
               = float_sum (abs_differences (a1 ++ a2) (b1 ++ b2))).
  { unfold abs_differences. rewrite !combine_app_same by assumption.
    cbn [combine]. rewrite !map_app. cbn [map fst snd]. rewrite Hd.
    apply float_sum_drop_zero. apply (abs_differences_sign_clear a1 b1). }
  assert (Es : float_sum (abs_sums (a1 ++ x :: a2) (b1 ++ y :: b2))
               = float_sum (abs_sums (a1 ++ a2) (b1 ++ b2))).
  { unfold abs_sums. rewrite !combine_app_same by assumption.
    cbn [combine]. rewrite !map_app. cbn [map fst snd]. rewrite Hs.
    apply float_sum_drop_zero. apply (abs_sums_sign_clear a1 b1). }
  unfold bray_curtis_quotient. rewrite Ed, Es. reflexivity.
Qed.

End BrayCurtisMore.

Section SpecFloatNegation.

Local Open Scope Z_scope.

Variables prec emax : Z.

(** Negating both operands negates a difference and a sum, so the
    magnitudes are the same. *)
Lemma SFabs_sub_opp x y :
  SFabs (SFsub prec emax (SFopp x) (SFopp y)) = SFabs (SFsub prec emax x y).
Proof.
  destruct x as [sx|sx| |sx mx ex], y as [sy|sy| |sy my ey]; simpl; try reflexivity;
    try (destruct sx, sy; reflexivity).
  rewrite (SFabs_binary_normalize_opp prec emax
             (cond_Zopp sx (Z.pos (fst (shl_align mx ex (Z.min ex ey))))
              - cond_Zopp sy (Z.pos (fst (shl_align my ey (Z.min ex ey)))))
             (Z.min ex ey) false false).
  f_equal. f_equal. destruct sx, sy; cbn [cond_Zopp negb]; lia.
Qed.

Lemma SFabs_add_opp x y :
  SFabs (SFadd prec emax (SFopp x) (SFopp y)) = SFabs (SFadd prec emax x y).
Proof.
  destruct x as [sx|sx| |sx mx ex], y as [sy|sy| |sy my ey]; simpl; try reflexivity;
    try (destruct sx, sy; reflexivity).
  rewrite (SFabs_binary_normalize_opp prec emax
             (cond_Zopp sx (Z.pos (fst (shl_align mx ex (Z.min ex ey))))
              + cond_Zopp sy (Z.pos (fst (shl_align my ey (Z.min ex ey)))))
             (Z.min ex ey) false false).
  f_equal. f_equal. destruct sx, sy; cbn [cond_Zopp negb]; lia.
Qed.

End SpecFloatNegation.

Section NegationFacts.

Local Open Scope float_scope.

Lemma abs_sub_opp x y : abs (- x - - y) = abs (x - y).
Proof.
  apply Prim2SF_inj. rewrite !abs_spec, !sub_spec, !opp_spec. apply SFabs_sub_opp.
Qed.

Lemma abs_add_opp x y : abs (- x + - y) = abs (x + y).
Proof.
  apply Prim2SF_inj. rewrite !abs_spec, !add_spec, !opp_spec. apply SFabs_add_opp.
Qed.

Lemma abs_terms_opp (a : list float64_t) :
  forall b : list float64_t,
  abs_differences (map PrimFloat.opp a) (map PrimFloat.opp b) = abs_differences a b
  /\ abs_sums (map PrimFloat.opp a) (map PrimFloat.opp b) = abs_sums a b.
Proof.
  unfold abs_differences, abs_sums.
  induction a as [|x a IH]; intros [|y b]; try (split; reflexivity).
  destruct (IH b) as [IHd IHs].
  cbn [map combine fst snd]. rewrite IHd, IHs, abs_sub_opp, abs_add_opp.
  split; reflexivity.
Qed.

End NegationFacts.

Section BrayCurtisNegation.

Context {Features : Type} `{DenseFeaturesClass Features}.

Local Open Scope float_scope.

(** X7: Negating every entry of both vectors leaves the outcome of [compute]
    as it is. *)
Theorem compute_negate_both (this this' : @BrayCurtisDistance Features)
    (idx_a idx_b idx_a' idx_b' : int32_t) :
  get_feature_vector (lhs this') idx_a'
  = map PrimFloat.opp (get_feature_vector (lhs this) idx_a) ->
  get_feature_vector (rhs this') idx_b'
  = map PrimFloat.opp (get_feature_vector (rhs this) idx_b) ->
  fst (compute idx_a' idx_b' this') = fst (compute idx_a idx_b this).
Proof.
  intros Ha Hb.
  destruct (Nat.eq_dec (length (get_feature_vector (lhs this) idx_a))
                       (length (get_feature_vector (rhs this) idx_b))) as [E|E].
  - rewrite (compute_equal_length this idx_a idx_b E).
    rewrite (compute_equal_length this' idx_a' idx_b')
      by (rewrite Ha, Hb, !length_map; exact E).
    rewrite Ha, Hb. unfold bray_curtis_quotient.
    destruct (abs_terms_opp (get_feature_vector (lhs this) idx_a)
                (get_feature_vector (rhs this) idx_b)) as [Hd Hs].
    rewrite Hd, Hs. reflexivity.
  - assert (E' : length (get_feature_vector (lhs this') idx_a')
                 <> length (get_feature_vector (rhs this') idx_b'))
      by (rewrite Ha, Hb, !length_map; exact E).
    rewrite !compute_unfold. cbv zeta.
    apply Nat.eqb_neq in E. apply Nat.eqb_neq in E'. rewrite E, E'. reflexivity.
Qed.

End BrayCurtisNegation.

(** ** More on FirstOrderStochasticMinimizer *)

Section MinimizerMore.

Context {CostFunction DescendUpdater LearningRate : Type}.
Context {Penalty ProximalPenalty SparsePenalty : Type}.
Context `{Handle DescendUpdater} `{Handle LearningRate}.
Context `{LearningRateClass LearningRate}.
Context `{PenaltyClass Penalty ProximalPenalty SparsePenalty}.

Local Abbreviation Minimizer :=
  (@FirstOrderStochasticMinimizer CostFunction DescendUpdater LearningRate Penalty).



Lemma init_returns (this : Minimizer) : init this = (Ok tt, snd (init this)).
Proof. reflexivity. Qed.

(** X10: A minimizer as the constructor leaves it does not pass
    [init_minimization()]: with a cost function it stops at the missing
    updater, without one at the missing cost function. *)
Theorem init_minimization_after_init_throws (this : Minimizer) :
  fst ((init ;; init_minimization) this)
  = Threw (if is_set (m_fun this) then "Descend updater must set"
           else "Cost function must set").
Proof.
  unfold bind. rewrite (init_returns this). cbv beta iota.
  rewrite init_minimization_run.
  destruct (init_run this) as (_ & Hu & _). rewrite Hu.
  change (m_fun (snd (init this))) with (m_fun this).
  destruct (is_set (m_fun this)); reflexivity.
Qed.

(** X11: The configuration protocol: after construction, setting an updater and
    a positive number of passes makes [init_minimization()] return, with
    the updater and the number of passes stored, both counters at zero and
    no learning rate. *)
Theorem configured_minimizer_initializes (this : Minimizer)
    (u : DescendUpdater) (n : int32_t) :
  m_fun this <> None -> (0 < n)%Z ->
  let run := (init ;; set_gradient_updater (Some u) ;; set_number_passes n ;;
              init_minimization) this in
  fst run = Ok tt
  /\ m_gradient_updater (snd run) = Some u
  /\ m_num_passes (snd run) = n
  /\ m_cur_passes (snd run) = 0%Z
  /\ m_iter_counter (snd run) = 0%Z
  /\ m_learning_rate (snd run) = None.
Proof.
  intros Hf Hn. cbv zeta. unfold bind.
  rewrite (init_returns this). cbv beta iota.
  destruct (init_run this) as (_ & _ & Hlr & _ & _ & Hit).
  assert (Hf0 : is_set (m_fun (snd (init this))) = true)
    by (apply is_set_true; exact Hf).
  revert Hlr Hit Hf0. generalize (snd (init this)) as this0.
  intros this0 Hlr Hit Hf0.
  rewrite set_gradient_updater_some, set_number_passes_run.
  apply Z.ltb_lt in Hn. rewrite Hn.
  rewrite init_minimization_run.
  cbn [set_m_num_passes set_m_gradient_updater m_fun m_gradient_updater m_num_passes
       is_set].
  rewrite Hf0, Hn.
  cbn [fst snd set_m_cur_passes set_m_num_passes set_m_gradient_updater
       m_gradient_updater m_num_passes m_cur_passes m_iter_counter m_learning_rate].
  repeat split; assumption.
Qed.

(** X12: Running [init_minimization()] twice is running it once. *)
Theorem init_minimization_idempotent (this : Minimizer) :
  (init_minimization ;; init_minimization) this = init_minimization this.
Proof.
  unfold bind. rewrite init_minimization_run.
  destruct (is_set (m_fun this)) eqn:Ef; [|reflexivity].
  destruct (is_set (m_gradient_updater this)) eqn:Eu; [|reflexivity].
  destruct (0 <? m_num_passes this)%Z eqn:En; [|reflexivity].
  rewrite init_minimization_run.
  cbn [set_m_cur_passes m_fun m_gradient_updater m_num_passes].
  rewrite Ef, Eu, En. reflexivity.
Qed.

(** X13: A later setter call replaces what an earlier one stored: two calls in
    a row leave the object as the second call alone would. *)
Theorem setters_last_call_wins (this : Minimizer) :
  (forall u u' : DescendUpdater,
     (set_gradient_updater (Some u) ;; set_gradient_updater (Some u')) this
     = set_gradient_updater (Some u') this)
  /\ (forall lr lr' : shared_ptr LearningRate,
        (set_learning_rate lr ;; set_learning_rate lr') this
        = set_learning_rate lr' this)
  /\ (forall n n' : int32_t, (0 < n)%Z ->
        (set_number_passes n ;; set_number_passes n') this
        = if (0 <? n')%Z then set_number_passes n' this
          else (fst (set_number_passes n' this), snd (set_number_passes n this))).
Proof.
  split; [|split].
  - intros u u'. unfold bind. rewrite !set_gradient_updater_some. reflexivity.
  - intros lr lr'. unfold bind. rewrite !set_learning_rate_run. reflexivity.
  - intros n n' Hn. unfold bind. rewrite (set_number_passes_run this n).
    destruct (Z.ltb_spec 0 n); [|lia].
    rewrite !set_number_passes_run.
    destruct (0 <? n')%Z; reflexivity.
Qed.

(** *** What the methods leave alone *)

Lemma run_call_frame (c : call) (w : Minimizer * SGVector) :
  let this := fst w in
  let this' := fst (snd (run_call c w)) in
  m_fun this' = m_fun this
  /\ m_penalty_type this' = m_penalty_type this
  /\ m_penalty_weight this' = m_penalty_weight this
  /\ m_iter_counter this' = m_iter_counter this
  /\ m_parameters this' = m_parameters this.
Proof.
  destruct w as [this v]. cbn [fst].
  destruct c as [u|n|lr| |]; cbn [run_call]; unfold lift_this, lift_vector; cbn [fst snd].
  - destruct u as [u|].
    + rewrite set_gradient_updater_some. repeat split.
    + rewrite set_gradient_updater_null. repeat split.
  - rewrite set_number_passes_run. destruct (0 <? n)%Z; repeat split.
  - rewrite set_learning_rate_run. repeat split.
  - destruct (do_proximal_operation this v). repeat split.
  - rewrite init_minimization_run.
    destruct (is_set (m_fun this)), (is_set (m_gradient_updater this)),
      (0 <? m_num_passes this)%Z; repeat split.
Qed.

(** X14: No sequence of calls of the setters, [init_minimization] and
    [do_proximal_operation] changes the cost function, the penalty, the
    penalty weight, the iteration counter or the registered parameters. *)
Theorem run_calls_frame (cs : list call) :
  forall w : Minimizer * SGVector,
  let this := fst w in
  let this' := fst (run_calls cs w) in
  m_fun this' = m_fun this
  /\ m_penalty_type this' = m_penalty_type this
  /\ m_penalty_weight this' = m_penalty_weight this
  /\ m_iter_counter this' = m_iter_counter this
  /\ m_parameters this' = m_parameters this.
Proof.
  induction cs as [|c cs IH]; intros w; cbn [run_calls]; [repeat split|].
  cbv zeta. destruct (IH (snd (run_call c w))) as (F1 & F2 & F3 & F4 & F5).
  destruct (run_call_frame c w) as (G1 & G2 & G3 & G4 & G5).
  cbv zeta in F1, F2, F3, F4, F5, G1, G2, G3, G4, G5.
  split; [rewrite F1; exact G1|]. split; [rewrite F2; exact G2|].
  split; [rewrite F3; exact G3|]. split; [rewrite F4; exact G4|].
  rewrite F5; exact G5.
Qed.

Lemma run_call_keeps_passes (c : call) (w : Minimizer * SGVector) :
  (0 < m_num_passes (fst w))%Z ->
  (0 < m_num_passes (fst (snd (run_call c w))))%Z.
Proof.
  destruct w as [this v]. cbn [fst]. intros Hn.
  destruct c as [u|n|lr| |]; cbn [run_call]; unfold lift_this, lift_vector; cbn [fst snd].
  - destruct u as [u|].
    + rewrite set_gradient_updater_some. exact Hn.
    + rewrite set_gradient_updater_null. exact Hn.
  - rewrite set_number_passes_run. destruct (Z.ltb_spec 0 n); cbn; assumption.
  - rewrite set_learning_rate_run. exact Hn.
  - destruct (do_proximal_operation this v). exact Hn.
  - rewrite init_minimization_run.
    destruct (is_set (m_fun this)), (is_set (m_gradient_updater this)),
      (0 <? m_num_passes this)%Z; exact Hn.
Qed.

(** X15: A positive number of passes stays positive through every sequence of
    calls, failed calls included. *)
Theorem run_calls_keep_passes_positive (cs : list call) :
  forall w : Minimizer * SGVector,
  (0 < m_num_passes (fst w))%Z ->
  (0 < m_num_passes (fst (run_calls cs w)))%Z.
Proof.
  induction cs as [|c cs IH]; intros w Hn; cbn [run_calls]; [exact Hn|].
  apply IH, run_call_keeps_passes, Hn.
Qed.

End MinimizerMore.

(** ** Further runs on the example collaborators *)

Section MoreRuns.

Import Example.

Local Open Scope float_scope.


Lemma compute_never_negative_witness : (0.25 <? 0) = false.
Proof.
  apply (compute_never_negative (distance_of [[1; 2]] [[3; 2]]) 0%Z 0%Z 0.25).
  reflexivity.
Defined.

Lemma compute_nan_entry_witness :
  compute 0%Z 0%Z (distance_of [[nan; 1]] [[2; 3]])
  = (Ok nan, distance_of [[nan; 1]] [[2; 3]]).
Proof.
  apply (compute_nan_entry (distance_of [[nan; 1]] [[2; 3]]) 0%Z 0%Z); reflexivity.
Defined.

Lemma compute_opposite_vectors_witness :
  compute 0%Z 0%Z (distance_of [[1; -2]] [[-1; 2]])
  = (Ok 0, distance_of [[1; -2]] [[-1; 2]]).
Proof.
  apply (compute_opposite_vectors (distance_of [[1; -2]] [[-1; 2]]) 0%Z 0%Z);
    reflexivity.
Defined.

Lemma compute_against_zero_vector_witness :
  compute 0%Z 0%Z (distance_of [[1; -2]] [[0; 0]])
  = (Ok 1, distance_of [[1; -2]] [[0; 0]]).
Proof.
  apply (compute_against_zero_vector (distance_of [[1; -2]] [[0; 0]]) 0%Z 0%Z);
    reflexivity.
Defined.

Lemma compute_ignores_zero_pair_witness :
  fst (compute 0%Z 0%Z (distance_of [[1; 0; 2]] [[3; -0; 5]]))
  = fst (compute 0%Z 0%Z (distance_of [[1; 2]] [[3; 5]])).
Proof.
  apply (compute_ignores_zero_pair
           (distance_of [[1; 0; 2]] [[3; -0; 5]]) (distance_of [[1; 2]] [[3; 5]])
           0%Z 0%Z 0%Z 0%Z [1] [2] [3] [5] 0 (-0));
    reflexivity.
Defined.

Lemma compute_negate_both_witness :
  fst (compute 0%Z 0%Z (distance_of [[-1; 2]] [[-3; -5]]))
  = fst (compute 0%Z 0%Z (distance_of [[1; -2]] [[3; 5]])).
Proof.
  apply (compute_negate_both (distance_of [[1; -2]] [[3; 5]])
           (distance_of [[-1; 2]] [[-3; -5]]) 0%Z 0%Z 0%Z 0%Z);
    reflexivity.
Defined.

Lemma configured_minimizer_initializes_witness :
  fst ((init ;; set_gradient_updater (Some PlainUpdater) ;; set_number_passes 5%Z ;;
        init_minimization) (running (Some L1Penalty) (Some ConstantRate)))
  = Ok tt.
Proof.
  apply (configured_minimizer_initializes
           (running (Some L1Penalty) (Some ConstantRate)) PlainUpdater 5%Z);
    [discriminate | reflexivity].
Defined.

Lemma run_calls_keep_passes_positive_witness :
  Z.lt 0
    (m_num_passes
       (fst (run_calls [SetNumberPasses (-1)%Z; InitMinimization; SetLearningRate None]
               (running None None, [1; -3])))).
Proof.
  apply (run_calls_keep_passes_positive
           [SetNumberPasses (-1)%Z; InitMinimization; SetLearningRate None]
           (running None None, [1; -3])).
  reflexivity.
Defined.

End MoreRuns.
